(** * Etherlink: the frame protocol engine

    A shallow embedding of [etherlink/src/etherlink.c] (with the types and
    constants of [etherlink.h]) and the properties of its CRC engine, its
    incremental frame parser and its frame encoder.

    Conventions of the embedding.
    - [uint8_t] and [uint32_t] values are integers of [Z]; the wrap-around of
      the C arithmetic is written out with [wrap8] and [wrap32].
    - A C array is a [list Z]; a read or write outside the array is undefined
      behaviour in C and is the result [None] here.
    - A function pointer is either [None] (the NULL pointer) or [Some f] for
      a handle [f]; calling it appends a [call] to the trace the function
      returns.  The callbacks are opaque: they do not touch the context.
    - A context pointer is modelled by the record it points to, so the guard
      [if (!ctx) return] of the C functions has no counterpart; the same
      holds for the configuration pointer of [el_init]. *)

From Stdlib Require Import ZArith Lia.
From stdpp Require Import base option list.

Local Open Scope Z_scope.

(** ** Configuration ([etherlink.h]) *)

Definition EL_SYNC_BYTE : Z := 0xA5.
Definition EL_MAX_PAYLOAD : Z := 250.
Definition EL_FRAME_OVERHEAD : Z := 4.

(** ** Machine integers *)

Definition wrap8 (z : Z) : Z := z mod 256.
Definition wrap32 (z : Z) : Z := z mod 4294967296.

Definition is_u8 (z : Z) : Prop := 0 <= z < 256.
Definition is_u32 (z : Z) : Prop := 0 <= z < 4294967296.

(** ** CRC-8/CCITT lookup table *)

Definition crc8_table : list Z :=
  [ 0x00; 0x07; 0x0E; 0x09; 0x1C; 0x1B; 0x12; 0x15;
    0x38; 0x3F; 0x36; 0x31; 0x24; 0x23; 0x2A; 0x2D;
    0x70; 0x77; 0x7E; 0x79; 0x6C; 0x6B; 0x62; 0x65;
    0x48; 0x4F; 0x46; 0x41; 0x54; 0x53; 0x5A; 0x5D;
    0xE0; 0xE7; 0xEE; 0xE9; 0xFC; 0xFB; 0xF2; 0xF5;
    0xD8; 0xDF; 0xD6; 0xD1; 0xC4; 0xC3; 0xCA; 0xCD;
    0x90; 0x97; 0x9E; 0x99; 0x8C; 0x8B; 0x82; 0x85;
    0xA8; 0xAF; 0xA6; 0xA1; 0xB4; 0xB3; 0xBA; 0xBD;
    0xC7; 0xC0; 0xC9; 0xCE; 0xDB; 0xDC; 0xD5; 0xD2;
    0xFF; 0xF8; 0xF1; 0xF6; 0xE3; 0xE4; 0xED; 0xEA;
    0xB7; 0xB0; 0xB9; 0xBE; 0xAB; 0xAC; 0xA5; 0xA2;
    0x8F; 0x88; 0x81; 0x86; 0x93; 0x94; 0x9D; 0x9A;
    0x27; 0x20; 0x29; 0x2E; 0x3B; 0x3C; 0x35; 0x32;
    0x1F; 0x18; 0x11; 0x16; 0x03; 0x04; 0x0D; 0x0A;
    0x57; 0x50; 0x59; 0x5E; 0x4B; 0x4C; 0x45; 0x42;
    0x6F; 0x68; 0x61; 0x66; 0x73; 0x74; 0x7D; 0x7A;
    0x89; 0x8E; 0x87; 0x80; 0x95; 0x92; 0x9B; 0x9C;
    0xB1; 0xB6; 0xBF; 0xB8; 0xAD; 0xAA; 0xA3; 0xA4;
    0xF9; 0xFE; 0xF7; 0xF0; 0xE5; 0xE2; 0xEB; 0xEC;
    0xC1; 0xC6; 0xCF; 0xC8; 0xDD; 0xDA; 0xD3; 0xD4;
    0x69; 0x6E; 0x67; 0x60; 0x75; 0x72; 0x7B; 0x7C;
    0x51; 0x56; 0x5F; 0x58; 0x4D; 0x4A; 0x43; 0x44;
    0x19; 0x1E; 0x17; 0x10; 0x05; 0x02; 0x0B; 0x0C;
    0x21; 0x26; 0x2F; 0x28; 0x3D; 0x3A; 0x33; 0x34;
    0x4E; 0x49; 0x40; 0x47; 0x52; 0x55; 0x5C; 0x5B;
    0x76; 0x71; 0x78; 0x7F; 0x6A; 0x6D; 0x64; 0x63;
    0x3E; 0x39; 0x30; 0x37; 0x22; 0x25; 0x2C; 0x2B;
    0x06; 0x01; 0x08; 0x0F; 0x1A; 0x1D; 0x14; 0x13;
    0xAE; 0xA9; 0xA0; 0xA7; 0xB2; 0xB5; 0xBC; 0xBB;
    0x96; 0x91; 0x98; 0x9F; 0x8A; 0x8D; 0x84; 0x83;
    0xDE; 0xD9; 0xD0; 0xD7; 0xC2; 0xC5; 0xCC; 0xCB;
    0xE6; 0xE1; 0xE8; 0xEF; 0xFA; 0xFD; 0xF4; 0xF3 ].

(** ** CRC functions *)

(** [crc8_table[crc ^ byte]]: both operands are [uint8_t], so the index is
    below 256 and the read is inside the table. *)
Definition el_crc8_update (crc byte : Z) : Z :=
  crc8_table !!! Z.to_nat (Z.lxor crc byte).

(** The loop [for (i = 0; i < len; i++) crc = crc8_table[crc ^ data[i]]],
    entered at index [i] with [n] iterations left. *)
Fixpoint el_crc8_loop (data : list Z) (i n : nat) (crc : Z) : option Z :=
  match n with
  | O => Some crc
  | S n' =>
      byte ← data !! i;
      el_crc8_loop data (S i) n' (crc8_table !!! Z.to_nat (Z.lxor crc byte))
  end.

Definition el_crc8 (data : list Z) (len : Z) : option Z :=
  el_crc8_loop data 0 (Z.to_nat len) 0x00.

(** ** The reference CRC-8: polynomial 0x07, initial value 0x00, no reflection

    The bit-at-a-time algorithm: the byte is XORed into the register, then
    eight times the register is shifted left by one bit and, when the bit
    shifted out was set, the polynomial is XORed in. *)

Definition crc8_poly : Z := 0x07.

Definition crc8_shift (reg : Z) : Z :=
  if Z.testbit reg 7
  then Z.lxor (Z.land (Z.shiftl reg 1) 0xFF) crc8_poly
  else Z.land (Z.shiftl reg 1) 0xFF.

Definition crc8_bitwise_byte (crc byte : Z) : Z :=
  Nat.iter 8 crc8_shift (Z.lxor crc byte).

Definition crc8_bitwise (data : list Z) : Z :=
  fold_left crc8_bitwise_byte data 0x00.

(** ** Types ([etherlink.h]) *)

(** A function pointer: a handle naming the function it points to. *)
Definition fnptr : Type := nat.

Inductive el_state_t : Type :=
  | EL_STATE_IDLE
  | EL_STATE_GOT_SYNC
  | EL_STATE_GOT_ID
  | EL_STATE_GOT_LEN
  | EL_STATE_GOT_PAYLOAD.

Record el_ctx_t : Type := mk_el_ctx {
  on_message : option fnptr;
  send_bytes : option fnptr;
  state : el_state_t;
  msg_id : Z;
  payload_len : Z;
  payload_idx : Z;
  rx_buffer : list Z;
  running_crc : Z;
  rx_frames : Z;
  rx_errors : Z;
  tx_frames : Z
}.

Record el_config_t : Type := mk_el_config {
  cfg_on_message : option fnptr;
  cfg_send_bytes : option fnptr
}.

(** Field assignments [ctx->field = v]. *)
Definition set_on_message (c : el_ctx_t) (v : option fnptr) : el_ctx_t :=
  mk_el_ctx v (send_bytes c) (state c) (msg_id c) (payload_len c)
    (payload_idx c) (rx_buffer c) (running_crc c) (rx_frames c) (rx_errors c)
    (tx_frames c).
Definition set_send_bytes (c : el_ctx_t) (v : option fnptr) : el_ctx_t :=
  mk_el_ctx (on_message c) v (state c) (msg_id c) (payload_len c)
    (payload_idx c) (rx_buffer c) (running_crc c) (rx_frames c) (rx_errors c)
    (tx_frames c).
Definition set_state (c : el_ctx_t) (v : el_state_t) : el_ctx_t :=
  mk_el_ctx (on_message c) (send_bytes c) v (msg_id c) (payload_len c)
    (payload_idx c) (rx_buffer c) (running_crc c) (rx_frames c) (rx_errors c)
    (tx_frames c).
Definition set_msg_id (c : el_ctx_t) (v : Z) : el_ctx_t :=
  mk_el_ctx (on_message c) (send_bytes c) (state c) v (payload_len c)
    (payload_idx c) (rx_buffer c) (running_crc c) (rx_frames c) (rx_errors c)
    (tx_frames c).
Definition set_payload_len (c : el_ctx_t) (v : Z) : el_ctx_t :=
  mk_el_ctx (on_message c) (send_bytes c) (state c) (msg_id c) v
    (payload_idx c) (rx_buffer c) (running_crc c) (rx_frames c) (rx_errors c)
    (tx_frames c).
Definition set_payload_idx (c : el_ctx_t) (v : Z) : el_ctx_t :=
  mk_el_ctx (on_message c) (send_bytes c) (state c) (msg_id c) (payload_len c)
    v (rx_buffer c) (running_crc c) (rx_frames c) (rx_errors c) (tx_frames c).
Definition set_rx_buffer (c : el_ctx_t) (v : list Z) : el_ctx_t :=
  mk_el_ctx (on_message c) (send_bytes c) (state c) (msg_id c) (payload_len c)
    (payload_idx c) v (running_crc c) (rx_frames c) (rx_errors c) (tx_frames c).
Definition set_running_crc (c : el_ctx_t) (v : Z) : el_ctx_t :=
  mk_el_ctx (on_message c) (send_bytes c) (state c) (msg_id c) (payload_len c)
    (payload_idx c) (rx_buffer c) v (rx_frames c) (rx_errors c) (tx_frames c).
Definition set_rx_frames (c : el_ctx_t) (v : Z) : el_ctx_t :=
  mk_el_ctx (on_message c) (send_bytes c) (state c) (msg_id c) (payload_len c)
    (payload_idx c) (rx_buffer c) (running_crc c) v (rx_errors c) (tx_frames c).
Definition set_rx_errors (c : el_ctx_t) (v : Z) : el_ctx_t :=
  mk_el_ctx (on_message c) (send_bytes c) (state c) (msg_id c) (payload_len c)
    (payload_idx c) (rx_buffer c) (running_crc c) (rx_frames c) v (tx_frames c).
Definition set_tx_frames (c : el_ctx_t) (v : Z) : el_ctx_t :=
  mk_el_ctx (on_message c) (send_bytes c) (state c) (msg_id c) (payload_len c)
    (payload_idx c) (rx_buffer c) (running_crc c) (rx_frames c) (rx_errors c) v.

(** ** Calls through the two function pointers

    [OnMessage f id buf len] is the call [f(id, buf, len)] made through
    [ctx->on_message], where [buf] is the receive buffer as it is at the
    call; [SendBytes f buf len] is the call [f(buf, len)] made through
    [ctx->send_bytes], where [buf] is the frame array.  The callee is
    handed the first [len] bytes of [buf]: [view buf len]. *)
Inductive call : Type :=
  | OnMessage (f : fnptr) (id : Z) (buf : list Z) (len : Z)
  | SendBytes (f : fnptr) (buf : list Z) (len : Z).

Definition view (buf : list Z) (len : Z) : list Z := take (Z.to_nat len) buf.

(** ** Array accesses *)

(** [buf[i] = v]; outside the array the behaviour is undefined. *)
Definition store (buf : list Z) (i v : Z) : option (list Z) :=
  if bool_decide (0 <= i < Z.of_nat (length buf))
  then Some (<[Z.to_nat i := v]> buf)
  else None.

(** [memcpy(&dst[off], src, n)]: reads [src[0..n-1]] and writes
    [dst[off..off+n-1]]; undefined when either range leaves its array. *)
Definition memcpy (dst : list Z) (off : Z) (src : list Z) (n : Z)
  : option (list Z) :=
  if bool_decide (0 <= off /\ 0 <= n /\ n <= Z.of_nat (length src)
                  /\ off + n <= Z.of_nat (length dst))
  then Some (take (Z.to_nat off) dst ++ take (Z.to_nat n) src
               ++ drop (Z.to_nat (off + n)) dst)
  else None.

(** ** Core API *)

(** [memset(ctx, 0, sizeof(el_ctx_t))]: NULL pointers, the first enumerator,
    zero integers and a zeroed receive buffer of [EL_MAX_PAYLOAD] bytes. *)
Definition el_ctx_zero : el_ctx_t :=
  mk_el_ctx None None EL_STATE_IDLE 0 0 0
    (replicate (Z.to_nat EL_MAX_PAYLOAD) 0) 0 0 0 0.

Definition el_init (ctx : el_ctx_t) (config : el_config_t) : bool * el_ctx_t :=
  match cfg_on_message config, cfg_send_bytes config with
  | Some _, Some _ =>
      let ctx := el_ctx_zero in
      let ctx := set_on_message ctx (cfg_on_message config) in
      let ctx := set_send_bytes ctx (cfg_send_bytes config) in
      let ctx := set_state ctx EL_STATE_IDLE in
      (true, ctx)
  | _, _ => (false, ctx)
  end.

Definition el_reset (ctx : el_ctx_t) : el_ctx_t :=
  let ctx := set_state ctx EL_STATE_IDLE in
  let ctx := set_payload_idx ctx 0 in
  let ctx := set_running_crc ctx 0 in
  ctx.

(** One step of the parser.  The result is [None] when the step writes
    outside the receive buffer; otherwise it is the context after the step
    and the calls made through [on_message] during it. *)
Definition el_process_byte (ctx : el_ctx_t) (byte : Z)
  : option (el_ctx_t * list call) :=
  match state ctx with
  | EL_STATE_IDLE =>
      if bool_decide (byte = EL_SYNC_BYTE) then
        let ctx := set_state ctx EL_STATE_GOT_SYNC in
        let ctx := set_running_crc ctx 0 in
        Some (ctx, [])
      else Some (ctx, [])
  | EL_STATE_GOT_SYNC =>
      let ctx := set_msg_id ctx byte in
      let ctx := set_running_crc ctx (el_crc8_update (running_crc ctx) byte) in
      let ctx := set_state ctx EL_STATE_GOT_ID in
      Some (ctx, [])
  | EL_STATE_GOT_ID =>
      let ctx := set_payload_len ctx byte in
      let ctx := set_running_crc ctx (el_crc8_update (running_crc ctx) byte) in
      if bool_decide (payload_len ctx > EL_MAX_PAYLOAD) then
        let ctx := set_rx_errors ctx (wrap32 (rx_errors ctx + 1)) in
        let ctx := set_state ctx EL_STATE_IDLE in
        Some (ctx, [])
      else if bool_decide (payload_len ctx = 0) then
        let ctx := set_state ctx EL_STATE_GOT_PAYLOAD in
        Some (ctx, [])
      else
        let ctx := set_payload_idx ctx 0 in
        let ctx := set_state ctx EL_STATE_GOT_LEN in
        Some (ctx, [])
  | EL_STATE_GOT_LEN =>
      buf ← store (rx_buffer ctx) (payload_idx ctx) byte;
      let ctx := set_rx_buffer ctx buf in
      let ctx := set_payload_idx ctx (wrap8 (payload_idx ctx + 1)) in
      let ctx := set_running_crc ctx (el_crc8_update (running_crc ctx) byte) in
      if bool_decide (payload_idx ctx >= payload_len ctx) then
        let ctx := set_state ctx EL_STATE_GOT_PAYLOAD in
        Some (ctx, [])
      else Some (ctx, [])
  | EL_STATE_GOT_PAYLOAD =>
      if bool_decide (byte = running_crc ctx) then
        let ctx := set_rx_frames ctx (wrap32 (rx_frames ctx + 1)) in
        let calls :=
          match on_message ctx with
          | Some f => [OnMessage f (msg_id ctx) (rx_buffer ctx) (payload_len ctx)]
          | None => []
          end in
        let ctx := set_state ctx EL_STATE_IDLE in
        Some (ctx, calls)
      else
        let ctx := set_rx_errors ctx (wrap32 (rx_errors ctx + 1)) in
        let ctx := set_state ctx EL_STATE_IDLE in
        Some (ctx, [])
  end.

(** The loop [for (i = 0; i < len; i++) el_process_byte(ctx, data[i])],
    entered at index [i] with [n] iterations left. *)
Fixpoint el_process_bytes_loop (ctx : el_ctx_t) (data : list Z) (i n : nat)
  : option (el_ctx_t * list call) :=
  match n with
  | O => Some (ctx, [])
  | S n' =>
      byte ← data !! i;
      '(ctx1, calls1) ← el_process_byte ctx byte;
      '(ctx2, calls2) ← el_process_bytes_loop ctx1 data (S i) n';
      Some (ctx2, calls1 ++ calls2)
  end.

Definition el_process_bytes (ctx : el_ctx_t) (data : list Z) (len : Z)
  : option (el_ctx_t * list call) :=
  el_process_bytes_loop ctx data 0 (Z.to_nat len).

(** [payload] is [None] for the NULL pointer and [Some p] for a pointer to
    the array [p].  The result is the returned flag, the context after the
    call and the calls made through [send_bytes]; it is [None] when the
    function reads or writes outside an array.  The frame array is a local
    variable without initialiser; its bytes start as 0 here and every byte
    that is read has been written before. *)
Definition el_send (ctx : el_ctx_t) (msg_id : Z) (payload : option (list Z))
    (len : Z) : option (bool * el_ctx_t * list call) :=
  match send_bytes ctx with
  | None => Some (false, ctx, [])
  | Some sink =>
      if bool_decide (len > EL_MAX_PAYLOAD) then Some (false, ctx, [])
      else if bool_decide (len > 0) && bool_decide (payload = None)
      then Some (false, ctx, [])
      else
        let frame := replicate (Z.to_nat (EL_FRAME_OVERHEAD + EL_MAX_PAYLOAD)) 0 in
        let frame_len := 0 in
        frame ← store frame frame_len EL_SYNC_BYTE;
        let frame_len := wrap8 (frame_len + 1) in
        frame ← store frame frame_len msg_id;
        let frame_len := wrap8 (frame_len + 1) in
        frame ← store frame frame_len len;
        let frame_len := wrap8 (frame_len + 1) in
        '(frame, frame_len) ←
          (if bool_decide (len > 0) then
             src ← payload;
             frame ← memcpy frame frame_len src len;
             Some (frame, wrap8 (frame_len + len))
           else Some (frame, frame_len));
        crc ← el_crc8 (drop 1 frame) (2 + len);
        frame ← store frame frame_len crc;
        let frame_len := wrap8 (frame_len + 1) in
        let calls := [SendBytes sink frame frame_len] in
        let ctx := set_tx_frames ctx (wrap32 (tx_frames ctx + 1)) in
        Some (true, ctx, calls)
  end.

(** ** Vocabulary of the properties *)

(** The byte source: the received bytes are handed to [el_process_byte] one
    at a time, in order; the calls of the steps are collected in order. *)
Fixpoint el_feed (ctx : el_ctx_t) (bytes : list Z)
  : option (el_ctx_t * list call) :=
  match bytes with
  | [] => Some (ctx, [])
  | byte :: rest =>
      '(ctx1, calls1) ← el_process_byte ctx byte;
      '(ctx2, calls2) ← el_feed ctx1 rest;
      Some (ctx2, calls1 ++ calls2)
  end.

(** The bytes the checksum of a frame covers: message-id, length, payload. *)
Definition frame_body (m : Z) (p : list Z) : list Z :=
  m :: Z.of_nat (length p) :: p.

(** The wire frame [sync][message-id][length][payload...][crc] of a message,
    with the checksum of the reference CRC-8 over message-id, length and
    payload. *)
Definition wire_frame (m : Z) (p : list Z) : list Z :=
  EL_SYNC_BYTE :: frame_body m p ++ [crc8_bitwise (frame_body m p)].

(** Flipping bit [bit] of the byte at position [pos] of a byte sequence. *)
Definition flip_bit (bytes : list Z) (pos : nat) (bit : Z) : list Z :=
  alter (fun b => Z.lxor b (Z.shiftl 1 bit)) pos bytes.

(** The payload argument of [el_send] for a payload [p]: a pointer to [p],
    or possibly the NULL pointer when [p] is empty. *)
Definition payload_arg (payload : option (list Z)) (p : list Z) : Prop :=
  payload = Some p \/ (payload = None /\ p = []).

(** The bytes [p] that [el_send] is handed through the arguments [payload]
    and [len]: the first [len] bytes of the array [payload] points to; when
    [len] is 0 nothing is read and the pointer may be anything. *)
Definition payload_bytes (payload : option (list Z)) (len : Z) (p : list Z)
  : Prop :=
  Z.of_nat (length p) = len
  /\ (len = 0 \/ exists src, payload = Some src /\ p = view src len).

(** Both callbacks are configured, as [el_init] requires. *)
Definition ctx_ready (c : el_ctx_t) : Prop :=
  is_Some (on_message c) /\ is_Some (send_bytes c).

(** The receive buffer is the array [uint8_t rx_buffer[EL_MAX_PAYLOAD]]. *)
Definition rx_buffer_sized (c : el_ctx_t) : Prop :=
  Z.of_nat (length (rx_buffer c)) = EL_MAX_PAYLOAD.

(** The cursor invariant of the parser. *)
Definition cursor_in_bounds (c : el_ctx_t) : Prop :=
  state c = EL_STATE_GOT_LEN ->
  0 <= payload_idx c /\ payload_idx c < payload_len c
  /\ payload_len c <= EL_MAX_PAYLOAD.

(** A context as [el_init] or [el_reset] leaves it. *)
Inductive ctx_start : el_ctx_t -> Prop :=
  | start_init (c0 : el_ctx_t) (cfg : el_config_t) (c : el_ctx_t) :
      el_init c0 cfg = (true, c) -> ctx_start c
  | start_reset (c0 : el_ctx_t) :
      rx_buffer_sized c0 -> ctx_start (el_reset c0).

(** A parser fresh from [el_init], with message callback [f] and byte sink
    [g]. *)
Definition fresh_ctx (f g : fnptr) : el_ctx_t :=
  snd (el_init el_ctx_zero (mk_el_config (Some f) (Some g))).

Arguments fresh_ctx (f g)%_nat_scope.

(** A fresh parser fed [bytes] rejects: it makes no call, counts exactly one
    rejected frame and no received frame, and is idle again. *)
Definition rejected_once (f g : fnptr) (bytes : list Z) : Prop :=
  exists ctx',
    el_feed (fresh_ctx f g) bytes = Some (ctx', [])
    /\ rx_errors ctx' = 1 /\ rx_frames ctx' = 0
    /\ state ctx' = EL_STATE_IDLE.

Arguments rejected_once (f g)%_nat_scope bytes.

(** Checksum sensitivity for every byte after the sync marker, the length
    byte included: every single-bit flip in the wire frame of a message is
    rejected by a fresh parser. *)
Definition every_bit_flip_rejected : Prop :=
  forall (f g : fnptr) (m : Z) (p : list Z) (pos : nat) (bit : Z),
    is_u8 m -> Forall is_u8 p ->
    Z.of_nat (length p) <= EL_MAX_PAYLOAD ->
    (1 <= pos <= 3 + length p)%nat ->
    0 <= bit < 8 ->
    rejected_once f g (flip_bit (wire_frame m p) pos bit).

(** The context and the calls after the checksum byte [x] of a frame with
    message-id [m] and payload [p], for a parser that was idle with the
    fields given. *)
Definition after_frame (om sb : option fnptr) (k0 : Z) (buf : list Z)
    (rf re tf : Z) (m : Z) (p : list Z) (x : Z) : el_ctx_t * list call :=
  let len := Z.of_nat (length p) in
  let crc := fold_left el_crc8_update (frame_body m p) 0 in
  let buf' := p ++ drop (length p) buf in
  let k' := match p with [] => k0 | _ => len end in
  if bool_decide (x = crc) then
    (mk_el_ctx om sb EL_STATE_IDLE m len k' buf' crc (wrap32 (rf + 1)) re tf,
     match om with Some f => [OnMessage f m buf' len] | None => [] end)
  else
    (mk_el_ctx om sb EL_STATE_IDLE m len k' buf' crc rf (wrap32 (re + 1)) tf,
     []).

(** ** The helper macros ([etherlink.h]) *)

(** [EL_SEND(ctx, msg_id, ptr)] expands to [el_send] with the arguments
    [ctx], [msg_id], [ptr] and the [sizeof] of the object [ptr] points to,
    whose bytes are [obj].  [sizeof] has type [size_t]; the
    parameter [len] of [el_send] is a [uint8_t], so the argument is
    converted and keeps its low eight bits. *)
Definition EL_SEND (ctx : el_ctx_t) (msg_id : Z) (obj : list Z)
  : option (bool * el_ctx_t * list call) :=
  el_send ctx msg_id (Some obj) (wrap8 (Z.of_nat (length obj))).

(** [EL_CAST(type, payload, len)] expands to the conditional expression
    that is [payload], cast to a pointer to [type], when
    [len >= sizeof(type)], and NULL otherwise; [size] is [sizeof(type)]. *)
Definition EL_CAST (size : Z) (payload : option (list Z)) (len : Z)
  : option (list Z) :=
  if bool_decide (len >= size) then payload else None.

(** ** Vocabulary of the further properties *)

(** The message a call of the message callback carries: the message-id and
    the first [len] bytes of the buffer. *)
Definition call_message (c : call) : option (Z * list Z) :=
  match c with
  | OnMessage _ id buf len => Some (id, view buf len)
  | SendBytes _ _ _ => None
  end.

(** The call was made through the message callback [f]. *)
Definition is_on_message (f : fnptr) (c : call) : Prop :=
  match c with
  | OnMessage f' _ _ _ => f' = f
  | SendBytes _ _ _ => False
  end.

(** The message of the call stands in [input] as a whole wire frame: sync
    marker, message-id, length, as many payload bytes as the length says,
    and the CRC-8 of message-id, length and payload. *)
Definition delivered_from (input : list Z) (c : call) : Prop :=
  match c with
  | OnMessage _ id buf len =>
      Z.of_nat (length (view buf len)) = len
      /\ len <= EL_MAX_PAYLOAD
      /\ exists pre post, input = pre ++ wire_frame id (view buf len) ++ post
  | SendBytes _ _ _ => False
  end.

(** What the parser in context [c] has made of the bytes [hist] received so
    far: outside Idle, [hist] ends with the part of a frame the state stands
    for, and [running_crc] is the CRC of that part after the sync marker. *)
Definition parse_progress (hist : list Z) (c : el_ctx_t) : Prop :=
  rx_buffer_sized c
  /\ match state c with
     | EL_STATE_IDLE => True
     | EL_STATE_GOT_SYNC =>
         running_crc c = 0 /\ exists pre, hist = pre ++ [EL_SYNC_BYTE]
     | EL_STATE_GOT_ID =>
         running_crc c = fold_left el_crc8_update [msg_id c] 0
         /\ exists pre, hist = pre ++ [EL_SYNC_BYTE; msg_id c]
     | EL_STATE_GOT_LEN =>
         0 <= payload_idx c /\ payload_idx c < payload_len c
         /\ payload_len c <= EL_MAX_PAYLOAD
         /\ running_crc c
            = fold_left el_crc8_update
                (msg_id c :: payload_len c
                   :: view (rx_buffer c) (payload_idx c)) 0
         /\ exists pre,
              hist = pre ++ EL_SYNC_BYTE :: msg_id c :: payload_len c
                              :: view (rx_buffer c) (payload_idx c)
     | EL_STATE_GOT_PAYLOAD =>
         0 <= payload_len c /\ payload_len c <= EL_MAX_PAYLOAD
         /\ running_crc c
            = fold_left el_crc8_update
                (msg_id c :: payload_len c
                   :: view (rx_buffer c) (payload_len c)) 0
         /\ exists pre,
              hist = pre ++ EL_SYNC_BYTE :: msg_id c :: payload_len c
                              :: view (rx_buffer c) (payload_len c)
     end.

(** A received stream: each item is a run of bytes without sync marker
    followed by the wire frame of a message. *)
Definition stream_item : Type := list Z * (Z * list Z).

Definition item_message (it : stream_item) : Z * list Z := snd it.

Definition item_bytes (it : stream_item) : list Z :=
  fst it ++ wire_frame (fst (snd it)) (snd (snd it)).

Definition stream_bytes (items : list stream_item) : list Z :=
  concat (map item_bytes items).

Definition item_ok (it : stream_item) : Prop :=
  Forall (fun b => b <> EL_SYNC_BYTE) (fst it)
  /\ is_u8 (fst (snd it)) /\ Forall is_u8 (snd (snd it))
  /\ Z.of_nat (length (snd (snd it))) <= EL_MAX_PAYLOAD.

(** ** Proof automation *)

#[local] Arguments el_crc8_update : simpl never.

(** Reduces the field assignments and field reads of a goal. *)
Ltac ctx_simpl :=
  cbv beta iota zeta delta
    [set_on_message set_send_bytes set_state set_msg_id set_payload_len
     set_payload_idx set_rx_buffer set_running_crc set_rx_frames
     set_rx_errors set_tx_frames
     on_message send_bytes state msg_id payload_len payload_idx rx_buffer
     running_crc rx_frames rx_errors tx_frames].

(** ** Properties of the CRC engine *)

Lemma crc8_table_length : length crc8_table = 256%nat.
Proof. reflexivity. Qed.

Lemma crc8_table_bitwise :
  crc8_table = (fun i => crc8_bitwise_byte 0 (Z.of_nat i)) <$> seq 0 256.
Proof. vm_compute. reflexivity. Qed.

Lemma crc8_table_u8 : Forall is_u8 crc8_table.
Proof.
  apply Forall_forall. intros x Hx.
  rewrite crc8_table_bitwise in Hx.
  apply list_elem_of_fmap in Hx as (i & -> & Hi).
  apply elem_of_seq in Hi.
  assert (forallb (fun i => bool_decide (is_u8 (crc8_bitwise_byte 0 (Z.of_nat i))))
            (seq 0 256) = true) as Hall by (vm_compute; reflexivity).
  rewrite forallb_forall in Hall.
  specialize (Hall i). rewrite bool_decide_eq_true in Hall.
  apply Hall, in_seq. lia.
Qed.

Lemma crc8_table_lookup (i : nat) :
  (i < 256)%nat -> crc8_table !! i = Some (crc8_bitwise_byte 0 (Z.of_nat i)).
Proof.
  intros Hi. rewrite crc8_table_bitwise, list_lookup_fmap, lookup_seq_lt by lia.
  reflexivity.
Qed.

Lemma lxor_u8 (a b : Z) : is_u8 a -> is_u8 b -> is_u8 (Z.lxor a b).
Proof.
  unfold is_u8. intros Ha Hb.
  assert (0 <= Z.lxor a b) as Hnn by (apply Z.lxor_nonneg; lia).
  split; [exact Hnn|].
  destruct (Z.eq_dec (Z.lxor a b) 0) as [->|Hne]; [lia|].
  apply (Z.log2_lt_pow2 _ 8); [lia|].
  pose proof (Z.log2_lxor a b ltac:(lia) ltac:(lia)) as Hl.
  assert (Z.log2 a < 8).
  { destruct (Z.eq_dec a 0) as [->|]; [simpl; lia|].
    apply Z.log2_lt_pow2; lia. }
  assert (Z.log2 b < 8).
  { destruct (Z.eq_dec b 0) as [->|]; [simpl; lia|].
    apply Z.log2_lt_pow2; lia. }
  lia.
Qed.

Lemma el_crc8_update_bitwise (crc byte : Z) :
  is_u8 crc -> is_u8 byte ->
  el_crc8_update crc byte = crc8_bitwise_byte crc byte.
Proof.
  intros Hc Hb. pose proof (lxor_u8 _ _ Hc Hb) as Hx. unfold is_u8 in Hx.
  unfold el_crc8_update.
  erewrite list_lookup_total_correct by (apply crc8_table_lookup; lia).
  unfold crc8_bitwise_byte. rewrite Z2Nat.id, Z.lxor_0_l by lia. reflexivity.
Qed.

Lemma el_crc8_update_u8 (crc byte : Z) :
  is_u8 crc -> is_u8 byte -> is_u8 (el_crc8_update crc byte).
Proof.
  intros Hc Hb. pose proof (lxor_u8 _ _ Hc Hb) as Hx. unfold is_u8 in Hx.
  unfold el_crc8_update.
  assert (Z.to_nat (Z.lxor crc byte) < length crc8_table)%nat as Hlt
    by (rewrite crc8_table_length; lia).
  apply list_lookup_lookup_total_lt in Hlt.
  eapply Forall_lookup_1; [apply crc8_table_u8 | exact Hlt].
Qed.

(** The running CRC of a byte sequence, folded one byte at a time. *)
Lemma el_crc8_loop_fold (data : list Z) (n i : nat) (crc : Z) :
  (i + n <= length data)%nat ->
  el_crc8_loop data i n crc
  = Some (fold_left el_crc8_update (take n (drop i data)) crc).
Proof.
  revert i crc. induction n as [|n IH]; intros i crc Hlen; simpl.
  - reflexivity.
  - destruct (data !! i) as [b|] eqn:Hb.
    2:{ apply lookup_ge_None in Hb. lia. }
    simpl. rewrite IH by lia.
    rewrite (drop_S _ _ _ Hb). simpl. reflexivity.
Qed.

Lemma fold_crc8_u8 (data : list Z) (crc : Z) :
  is_u8 crc -> Forall is_u8 data -> is_u8 (fold_left el_crc8_update data crc).
Proof.
  intros Hc Hd. revert crc Hc.
  induction Hd as [|b data Hb _ IH]; intros crc Hc; simpl; [exact Hc|].
  apply IH, el_crc8_update_u8; assumption.
Qed.

Lemma fold_crc8_bitwise (data : list Z) (crc : Z) :
  is_u8 crc -> Forall is_u8 data ->
  fold_left el_crc8_update data crc = fold_left crc8_bitwise_byte data crc.
Proof.
  intros Hc Hd. revert crc Hc.
  induction Hd as [|b data Hb _ IH]; intros crc Hc; simpl; [reflexivity|].
  rewrite <- el_crc8_update_bitwise by assumption.
  apply IH, el_crc8_update_u8; assumption.
Qed.

Lemma zero_u8 : is_u8 0.
Proof. unfold is_u8. lia. Qed.

Lemma el_crc8_fold (data : list Z) (n : Z) :
  0 <= n <= Z.of_nat (length data) ->
  el_crc8 data n = Some (fold_left el_crc8_update (view data n) 0).
Proof.
  intros Hn. unfold el_crc8, view.
  rewrite el_crc8_loop_fold by lia. rewrite drop_0. reflexivity.
Qed.

(** The standard check value of CRC-8 (polynomial 0x07, initial value 0x00):
    the ASCII digits 1 to 9 have checksum 0xF4. *)
Example el_crc8_check_value :
  el_crc8 [0x31; 0x32; 0x33; 0x34; 0x35; 0x36; 0x37; 0x38; 0x39] 9 = Some 0xF4.
Proof. reflexivity. Qed.

(** C3: the 256-entry table [crc8_table] agrees entry by entry with the
    bit-at-a-time CRC-8 of polynomial 0x07 (entry [i] is the register after
    the eight shifts of byte [i]), and on every array of bytes [data] and
    every length [n] within it, the table-driven [el_crc8] returns the value
    of the bit-at-a-time CRC-8 with initial value 0x00 and no reflection
    over the first [n] bytes. *)
Theorem el_crc8_refines_bitwise (data : list Z) (n : Z)
    (Hdata : Forall is_u8 data) (Hn : 0 <= n <= Z.of_nat (length data)) :
  (forall i : nat, (i < 256)%nat ->
     crc8_table !! i = Some (crc8_bitwise_byte 0x00 (Z.of_nat i)))
  /\ el_crc8 data n = Some (crc8_bitwise (view data n)).
Proof.
  split; [exact crc8_table_lookup|].
  rewrite el_crc8_fold by exact Hn. f_equal.
  apply fold_crc8_bitwise; [exact zero_u8|].
  unfold view. apply Forall_take, Hdata.
Qed.

Lemma el_crc8_refines_bitwise_witness :
  (forall i : nat, (i < 256)%nat ->
     crc8_table !! i = Some (crc8_bitwise_byte 0x00 (Z.of_nat i)))
  /\ el_crc8 [0x10; 0x03; 0x01; 0x02; 0x03; 0xFF] 5
     = Some (crc8_bitwise (view [0x10; 0x03; 0x01; 0x02; 0x03; 0xFF] 5)).
Proof.
  apply (el_crc8_refines_bitwise [0x10; 0x03; 0x01; 0x02; 0x03; 0xFF] 5).
  - repeat constructor; unfold is_u8; lia.
  - simpl. lia.
Defined.

(** ** Properties of single parser steps *)

Lemma wrap8_small (z : Z) : 0 <= z < 256 -> wrap8 z = z.
Proof. intros H. unfold wrap8. apply Z.mod_small. exact H. Qed.

Lemma wrap32_small (z : Z) : 0 <= z < 4294967296 -> wrap32 z = z.
Proof. intros H. unfold wrap32. apply Z.mod_small. exact H. Qed.

Lemma wrap32_u32 (z : Z) : is_u32 (wrap32 z).
Proof. unfold is_u32, wrap32. apply Z.mod_pos_bound. lia. Qed.

(** Below the largest [uint32_t] value the increment does not wrap. *)
Lemma wrap32_succ (z : Z) :
  is_u32 z -> z < 4294967295 -> wrap32 (z + 1) = z + 1.
Proof. unfold is_u32. intros Hz Hmax. apply wrap32_small. lia. Qed.

Lemma el_process_byte_idle_other (ctx : el_ctx_t) (byte : Z) :
  state ctx = EL_STATE_IDLE -> byte <> EL_SYNC_BYTE ->
  el_process_byte ctx byte = Some (ctx, []).
Proof.
  intros Hst Hb. unfold el_process_byte. rewrite Hst.
  rewrite bool_decide_eq_false_2 by exact Hb. reflexivity.
Qed.

Lemma el_feed_app (ctx : el_ctx_t) (xs ys : list Z) :
  el_feed ctx (xs ++ ys)
  = '(ctx1, calls1) ← el_feed ctx xs;
    '(ctx2, calls2) ← el_feed ctx1 ys;
    Some (ctx2, calls1 ++ calls2).
Proof.
  revert ctx. induction xs as [|x xs IH]; intros ctx; simpl.
  - destruct (el_feed ctx ys) as [[c t]|]; reflexivity.
  - destruct (el_process_byte ctx x) as [[c1 t1]|]; simpl; [|reflexivity].
    rewrite IH. destruct (el_feed c1 xs) as [[c2 t2]|]; simpl; [|reflexivity].
    destruct (el_feed c2 ys) as [[c3 t3]|]; simpl; [|reflexivity].
    rewrite app_assoc. reflexivity.
Qed.

Lemma el_feed_noise (ctx : el_ctx_t) (noise rest : list Z) :
  state ctx = EL_STATE_IDLE ->
  Forall (fun b => b <> EL_SYNC_BYTE) noise ->
  el_feed ctx (noise ++ rest) = el_feed ctx rest.
Proof.
  intros Hst Hn. induction Hn as [|b noise Hb _ IH]; simpl; [reflexivity|].
  rewrite el_process_byte_idle_other by assumption. simpl.
  rewrite IH. destruct (el_feed ctx rest) as [[c t]|]; reflexivity.
Qed.

(** The loop of [el_process_bytes] over a whole array is the byte source. *)
Lemma el_process_bytes_loop_feed (data : list Z) (n i : nat) (ctx : el_ctx_t) :
  (i + n <= length data)%nat ->
  el_process_bytes_loop ctx data i n = el_feed ctx (take n (drop i data)).
Proof.
  revert i ctx. induction n as [|n IH]; intros i ctx Hlen; simpl.
  - reflexivity.
  - destruct (data !! i) as [b|] eqn:Hb.
    2:{ apply lookup_ge_None in Hb. lia. }
    rewrite (drop_S _ _ _ Hb). simpl.
    destruct (el_process_byte ctx b) as [[c1 t1]|]; simpl; [|reflexivity].
    rewrite IH by lia. reflexivity.
Qed.

Lemma el_process_bytes_feed (ctx : el_ctx_t) (data : list Z) (len : Z) :
  0 <= len <= Z.of_nat (length data) ->
  el_process_bytes ctx data len = el_feed ctx (view data len).
Proof.
  intros Hlen. unfold el_process_bytes, view.
  rewrite el_process_bytes_loop_feed by lia. rewrite drop_0. reflexivity.
Qed.

(** ** The payload phase *)

Lemma store_in_range (buf : list Z) (i v : Z) :
  0 <= i < Z.of_nat (length buf) ->
  store buf i v = Some (<[Z.to_nat i := v]> buf).
Proof. intros H. unfold store. rewrite bool_decide_eq_true_2 by exact H. reflexivity. Qed.

Lemma insert_take_drop_app (buf q : list Z) (k : nat) (b : Z) :
  (k + S (length q) <= length buf)%nat ->
  take (S k) (<[k := b]> buf) ++ q ++ drop (S k + length q) (<[k := b]> buf)
  = take k buf ++ (b :: q) ++ drop (k + S (length q)) buf.
Proof.
  intros Hlen.
  rewrite (take_S_r _ _ b) by (apply list_lookup_insert_eq; lia).
  rewrite take_insert_ge by lia.
  rewrite drop_insert_lt by lia.
  rewrite <- app_assoc. simpl.
  replace (k + S (length q))%nat with (S (k + length q)) by lia.
  reflexivity.
Qed.

Lemma el_feed_payload (q : list Z) :
  forall om sb mid len k buf crc rf re tf,
    0 <= k -> k < len -> k + Z.of_nat (length q) <= len ->
    len <= EL_MAX_PAYLOAD -> Z.of_nat (length buf) = EL_MAX_PAYLOAD ->
    el_feed (mk_el_ctx om sb EL_STATE_GOT_LEN mid len k buf crc rf re tf) q
    = Some (mk_el_ctx om sb
              (if bool_decide (k + Z.of_nat (length q) >= len)
               then EL_STATE_GOT_PAYLOAD else EL_STATE_GOT_LEN)
              mid len (k + Z.of_nat (length q))
              (take (Z.to_nat k) buf ++ q
                 ++ drop (Z.to_nat k + length q) buf)
              (fold_left el_crc8_update q crc) rf re tf, []).
Proof.
  unfold EL_MAX_PAYLOAD.
  induction q as [|b q IH]; intros om sb mid len k buf crc rf re tf
    Hk Hlt Hfit Hmax Hbuf.
  - simpl. rewrite bool_decide_eq_false_2 by lia.
    rewrite Nat.add_0_r, take_drop, Z.add_0_r. reflexivity.
  - simpl length in *. cbn [el_feed].
    unfold el_process_byte. ctx_simpl.
    rewrite store_in_range by lia. simpl. ctx_simpl.
    rewrite wrap8_small by lia.
    case_bool_decide as Hdone.
    + assert (q = []) as -> by (destruct q; [reflexivity|simpl in Hfit; lia]).
      simpl. rewrite bool_decide_eq_true_2 by lia.
      pose proof (insert_take_drop_app buf [] (Z.to_nat k) b
                    ltac:(simpl; lia)) as Hins.
      simpl in Hins. rewrite <- Hins, Nat.add_0_r, take_drop. reflexivity.
    + simpl. rewrite IH by (rewrite ?length_insert; lia).
      simpl.
      replace (k + Z.of_nat (S (length q))) with (k + 1 + Z.of_nat (length q))
        by lia.
      replace (Z.to_nat (k + 1)) with (S (Z.to_nat k)) by lia.
      rewrite (insert_take_drop_app buf q (Z.to_nat k) b) by lia.
      reflexivity.
Qed.

(** ** Feeding one frame to an idle parser *)

Lemma el_feed_cons (ctx : el_ctx_t) (byte : Z) (rest : list Z) :
  el_feed ctx (byte :: rest)
  = '(ctx1, calls1) ← el_process_byte ctx byte;
    '(ctx2, calls2) ← el_feed ctx1 rest;
    Some (ctx2, calls1 ++ calls2).
Proof. reflexivity. Qed.

Lemma step_idle_sync om sb mid len k buf crc rf re tf :
  el_process_byte (mk_el_ctx om sb EL_STATE_IDLE mid len k buf crc rf re tf)
    EL_SYNC_BYTE
  = Some (mk_el_ctx om sb EL_STATE_GOT_SYNC mid len k buf 0 rf re tf, []).
Proof. reflexivity. Qed.

Lemma step_got_sync om sb mid len k buf crc rf re tf byte :
  el_process_byte (mk_el_ctx om sb EL_STATE_GOT_SYNC mid len k buf crc rf re tf)
    byte
  = Some (mk_el_ctx om sb EL_STATE_GOT_ID byte len k buf
            (el_crc8_update crc byte) rf re tf, []).
Proof. reflexivity. Qed.

Lemma step_got_id_overflow om sb mid len k buf crc rf re tf byte :
  byte > EL_MAX_PAYLOAD ->
  el_process_byte (mk_el_ctx om sb EL_STATE_GOT_ID mid len k buf crc rf re tf)
    byte
  = Some (mk_el_ctx om sb EL_STATE_IDLE mid byte k buf
            (el_crc8_update crc byte) rf (wrap32 (re + 1)) tf, []).
Proof.
  intros Hb. unfold el_process_byte. ctx_simpl.
  rewrite bool_decide_eq_true_2 by exact Hb. reflexivity.
Qed.

Lemma step_got_id_empty om sb mid len k buf crc rf re tf :
  el_process_byte (mk_el_ctx om sb EL_STATE_GOT_ID mid len k buf crc rf re tf) 0
  = Some (mk_el_ctx om sb EL_STATE_GOT_PAYLOAD mid 0 k buf
            (el_crc8_update crc 0) rf re tf, []).
Proof. reflexivity. Qed.

Lemma step_got_id_payload om sb mid len k buf crc rf re tf byte :
  byte <= EL_MAX_PAYLOAD -> byte <> 0 ->
  el_process_byte (mk_el_ctx om sb EL_STATE_GOT_ID mid len k buf crc rf re tf)
    byte
  = Some (mk_el_ctx om sb EL_STATE_GOT_LEN mid byte 0 buf
            (el_crc8_update crc byte) rf re tf, []).
Proof.
  intros Hb Hnz. unfold el_process_byte. ctx_simpl.
  rewrite bool_decide_eq_false_2 by lia.
  rewrite bool_decide_eq_false_2 by exact Hnz. reflexivity.
Qed.

Lemma step_got_payload om sb mid len k buf crc rf re tf byte :
  el_process_byte
    (mk_el_ctx om sb EL_STATE_GOT_PAYLOAD mid len k buf crc rf re tf) byte
  = Some (if bool_decide (byte = crc) then
            (mk_el_ctx om sb EL_STATE_IDLE mid len k buf crc
               (wrap32 (rf + 1)) re tf,
             match om with Some f => [OnMessage f mid buf len] | None => [] end)
          else
            (mk_el_ctx om sb EL_STATE_IDLE mid len k buf crc rf
               (wrap32 (re + 1)) tf, [])).
Proof.
  unfold el_process_byte. ctx_simpl. case_bool_decide; reflexivity.
Qed.

Lemma el_feed_cons_silent (ctx ctx1 : el_ctx_t) (byte : Z) (rest : list Z) :
  el_process_byte ctx byte = Some (ctx1, []) ->
  el_feed ctx (byte :: rest) = el_feed ctx1 rest.
Proof.
  intros H. rewrite el_feed_cons, H. cbn [mbind option_bind].
  destruct (el_feed ctx1 rest) as [[c t]|]; reflexivity.
Qed.

Lemma el_feed_app_silent (ctx ctx1 : el_ctx_t) (xs ys : list Z) :
  el_feed ctx xs = Some (ctx1, []) ->
  el_feed ctx (xs ++ ys) = el_feed ctx1 ys.
Proof.
  intros H. rewrite el_feed_app, H. cbn [mbind option_bind].
  destruct (el_feed ctx1 ys) as [[c t]|]; reflexivity.
Qed.

Lemma el_feed_one (ctx : el_ctx_t) (byte : Z) :
  el_feed ctx [byte] = el_process_byte ctx byte.
Proof.
  simpl. destruct (el_process_byte ctx byte) as [[c t]|]; simpl;
    [rewrite app_nil_r|]; reflexivity.
Qed.

Lemma el_feed_frame om sb mid0 len0 k0 buf crc0 rf re tf m p x :
  Z.of_nat (length p) <= EL_MAX_PAYLOAD ->
  Z.of_nat (length buf) = EL_MAX_PAYLOAD ->
  el_feed (mk_el_ctx om sb EL_STATE_IDLE mid0 len0 k0 buf crc0 rf re tf)
    (EL_SYNC_BYTE :: frame_body m p ++ [x])
  = Some (after_frame om sb k0 buf rf re tf m p x).
Proof.
  intros Hp Hbuf. unfold frame_body, after_frame.
  change ((m :: Z.of_nat (length p) :: p) ++ [x])
    with (m :: Z.of_nat (length p) :: (p ++ [x])).
  rewrite (el_feed_cons_silent _ _ _ _ (step_idle_sync _ _ _ _ _ _ _ _ _ _)).
  rewrite (el_feed_cons_silent _ _ _ _ (step_got_sync _ _ _ _ _ _ _ _ _ _ _)).
  destruct p as [|b p].
  - change (Z.of_nat (length [])) with 0.
    rewrite (el_feed_cons_silent _ _ _ _ (step_got_id_empty _ _ _ _ _ _ _ _ _ _)).
    cbn [app]. rewrite el_feed_one, step_got_payload, drop_0. reflexivity.
  - erewrite el_feed_cons_silent
      by (apply step_got_id_payload; cbn [length] in *; lia).
    erewrite el_feed_app_silent.
    2:{ rewrite el_feed_payload
          by (cbn [length] in *; unfold EL_MAX_PAYLOAD in *; lia).
        rewrite bool_decide_eq_true_2 by lia. reflexivity. }
    rewrite el_feed_one, step_got_payload.
    replace (0 + Z.of_nat (length (b :: p))) with (Z.of_nat (length (b :: p)))
      by lia.
    reflexivity.
Qed.

(** ** The frame encoder *)

Lemma el_send_ok (ctx : el_ctx_t) (sink : fnptr) (m : Z)
    (payload : option (list Z)) (p : list Z) :
  send_bytes ctx = Some sink ->
  payload_bytes payload (Z.of_nat (length p)) p ->
  Z.of_nat (length p) <= EL_MAX_PAYLOAD ->
  el_send ctx m payload (Z.of_nat (length p))
  = Some (true, set_tx_frames ctx (wrap32 (tx_frames ctx + 1)),
          [SendBytes sink
             (EL_SYNC_BYTE :: frame_body m p
                ++ fold_left el_crc8_update (frame_body m p) 0
                   :: replicate (250 - length p) 0)
             (Z.of_nat (length p) + 4)]).
Proof.
  intros Hs [_ Hpa] Hlen. unfold el_send. rewrite Hs.
  unfold EL_MAX_PAYLOAD in *.
  rewrite bool_decide_eq_false_2 by lia.
  assert (bool_decide (Z.of_nat (length p) > 0) && bool_decide (payload = None)
          = false) as ->.
  { destruct Hpa as [-> | (src & -> & _)]; [reflexivity | apply andb_false_r]. }
  change (replicate (Z.to_nat (EL_FRAME_OVERHEAD + 250)) 0)
    with (0 :: 0 :: 0 :: replicate 251 0).
  remember (replicate 251 0) as tail eqn:Htail.
  assert (length tail = 251%nat) as Hlt by (subst tail; apply length_replicate).
  change (wrap8 (0 + 1)) with 1. change (wrap8 (1 + 1)) with 2.
  change (wrap8 (2 + 1)) with 3.
  rewrite store_in_range by (cbn [length]; lia). cbn [mbind option_bind].
  change (<[Z.to_nat 0:=EL_SYNC_BYTE]> (0 :: 0 :: 0 :: tail))
    with (EL_SYNC_BYTE :: 0 :: 0 :: tail).
  rewrite store_in_range by (cbn [length]; lia). cbn [mbind option_bind].
  change (<[Z.to_nat 1:=m]> (EL_SYNC_BYTE :: 0 :: 0 :: tail))
    with (EL_SYNC_BYTE :: m :: 0 :: tail).
  rewrite store_in_range by (cbn [length]; lia). cbn [mbind option_bind].
  change (<[Z.to_nat 2:=Z.of_nat (length p)]> (EL_SYNC_BYTE :: m :: 0 :: tail))
    with (EL_SYNC_BYTE :: m :: Z.of_nat (length p) :: tail).
  set (frame3 := EL_SYNC_BYTE :: m :: Z.of_nat (length p) :: tail).
  assert ((if bool_decide (Z.of_nat (length p) > 0)
           then src ← payload;
                frame ← memcpy frame3 3 src (Z.of_nat (length p));
                Some (frame, wrap8 (3 + Z.of_nat (length p)))
           else Some (frame3, 3))
          = Some (EL_SYNC_BYTE :: frame_body m p ++ drop (length p) tail,
                  3 + Z.of_nat (length p))) as ->.
  { case_bool_decide as Hpos.
    - destruct Hpa as [Hz | (src & -> & Hview)]; [lia|].
      assert (length p <= length src)%nat as Hsrc.
      { rewrite Hview at 1. unfold view. rewrite length_take. lia. }
      cbn [mbind option_bind]. unfold memcpy.
      rewrite bool_decide_eq_true_2 by (subst frame3; cbn [length]; lia).
      cbn [mbind option_bind]. rewrite wrap8_small by lia.
      change (take (Z.to_nat (Z.of_nat (length p))) src)
        with (view src (Z.of_nat (length p))).
      rewrite <- Hview.
      replace (Z.to_nat (3 + Z.of_nat (length p)))
        with (S (S (S (length p)))) by lia.
      reflexivity.
    - assert (p = []) as -> by (destruct p; [reflexivity|simpl in Hpos; lia]).
      reflexivity. }
  cbn [mbind option_bind]. clear frame3.
  assert (length (frame_body m p) = S (S (length p))) as Hfb by reflexivity.
  change (drop 1 (EL_SYNC_BYTE :: frame_body m p ++ drop (length p) tail))
    with (frame_body m p ++ drop (length p) tail).
  rewrite el_crc8_fold by (rewrite length_app, length_drop, Hfb; lia).
  cbn [mbind option_bind]. unfold view.
  replace (Z.to_nat (2 + Z.of_nat (length p))) with (length (frame_body m p))
    by (rewrite Hfb; lia).
  rewrite take_app_length.
  set (crc := fold_left el_crc8_update (frame_body m p) 0).
  rewrite store_in_range
    by (cbn [length]; rewrite length_app, length_drop, Hfb; lia).
  cbn [mbind option_bind].
  rewrite wrap8_small by lia.
  replace (Z.to_nat (3 + Z.of_nat (length p)))
    with (S (length (frame_body m p) + 0)) by (rewrite Hfb; lia).
  change (<[S ?n := ?x]> (?a :: ?l)) with (a :: <[n := x]> l). rewrite insert_app_r.
  subst tail. rewrite drop_replicate.
  replace (251 - length p)%nat with (S (250 - length p)) by lia.
  cbn [replicate insert list_insert].
  do 4 f_equal. lia.
Qed.

Lemma payload_arg_bytes (payload : option (list Z)) (p : list Z) :
  payload_arg payload p -> payload_bytes payload (Z.of_nat (length p)) p.
Proof.
  intros [-> | [-> ->]]; (split; [reflexivity|]).
  - right. exists p. split; [reflexivity|].
    unfold view. rewrite Nat2Z.id, firstn_all. reflexivity.
  - left. reflexivity.
Qed.

Lemma el_send_no_sink (ctx : el_ctx_t) (m : Z) (payload : option (list Z))
    (len : Z) :
  send_bytes ctx = None -> el_send ctx m payload len = Some (false, ctx, []).
Proof. intros H. unfold el_send. rewrite H. reflexivity. Qed.

Lemma el_send_rejects (ctx : el_ctx_t) (m : Z) (payload : option (list Z))
    (len : Z) :
  len > EL_MAX_PAYLOAD \/ (payload = None /\ len > 0) ->
  el_send ctx m payload len = Some (false, ctx, []).
Proof.
  intros Hc. unfold el_send. destruct (send_bytes ctx); [|reflexivity].
  case_bool_decide as Hbig; [reflexivity|].
  destruct Hc as [Hc | [-> Hpos]]; [contradiction|].
  rewrite (bool_decide_eq_true_2 _ Hpos). reflexivity.
Qed.

Lemma frame_body_u8 (m : Z) (p : list Z) :
  is_u8 m -> Forall is_u8 p -> Z.of_nat (length p) <= EL_MAX_PAYLOAD ->
  Forall is_u8 (frame_body m p).
Proof.
  intros Hm Hp Hlen. unfold frame_body, EL_MAX_PAYLOAD in *.
  repeat constructor; try assumption; unfold is_u8 in *; lia.
Qed.

Lemma frame_crc_bitwise (m : Z) (p : list Z) :
  is_u8 m -> Forall is_u8 p -> Z.of_nat (length p) <= EL_MAX_PAYLOAD ->
  fold_left el_crc8_update (frame_body m p) 0 = crc8_bitwise (frame_body m p).
Proof.
  intros Hm Hp Hlen. apply fold_crc8_bitwise; [exact zero_u8|].
  apply frame_body_u8; assumption.
Qed.

Lemma view_frame_array (body : list Z) (crc : Z) (n : nat) (len : Z) :
  len = Z.of_nat (length body) + 2 ->
  view (EL_SYNC_BYTE :: body ++ crc :: replicate n 0) len
  = EL_SYNC_BYTE :: body ++ [crc].
Proof.
  intros ->. unfold view.
  replace (Z.to_nat (Z.of_nat (length body) + 2))
    with (S (length (body ++ [crc]))) by (rewrite length_app; simpl; lia).
  cbn [take]. f_equal.
  change (crc :: replicate n 0) with ([crc] ++ replicate n 0).
  rewrite app_assoc, take_app_length. reflexivity.
Qed.

(** ** Initialised contexts *)

Lemma el_init_inv (c0 c : el_ctx_t) (cfg : el_config_t) :
  el_init c0 cfg = (true, c) ->
  exists f g,
    cfg_on_message cfg = Some f /\ cfg_send_bytes cfg = Some g
    /\ c = mk_el_ctx (Some f) (Some g) EL_STATE_IDLE 0 0 0
             (replicate (Z.to_nat EL_MAX_PAYLOAD) 0) 0 0 0 0.
Proof.
  unfold el_init. destruct cfg as [[f|] [g|]]; simpl; intros H;
    inversion H; subst. exists f, g. repeat split.
Qed.

Lemma el_init_fails_iff (c0 : el_ctx_t) (cfg : el_config_t) :
  el_init c0 cfg = (false, c0)
  <-> cfg_on_message cfg = None \/ cfg_send_bytes cfg = None.
Proof.
  unfold el_init. destruct cfg as [[f|] [g|]]; simpl; split; intros H;
    try reflexivity; try discriminate; auto; destruct H; discriminate.
Qed.

Lemma el_init_ready (c0 c : el_ctx_t) (cfg : el_config_t) :
  el_init c0 cfg = (true, c) -> ctx_ready c.
Proof.
  intros H. apply el_init_inv in H as (f & g & _ & _ & ->).
  split; eexists; reflexivity.
Qed.

Lemma el_feed_frame_ctx (ctx : el_ctx_t) (m : Z) (p : list Z) (x : Z) :
  state ctx = EL_STATE_IDLE -> rx_buffer_sized ctx ->
  Z.of_nat (length p) <= EL_MAX_PAYLOAD ->
  el_feed ctx (EL_SYNC_BYTE :: frame_body m p ++ [x])
  = Some (after_frame (on_message ctx) (send_bytes ctx) (payload_idx ctx)
            (rx_buffer ctx) (rx_frames ctx) (rx_errors ctx) (tx_frames ctx)
            m p x).
Proof.
  destruct ctx as [om sb st mid len k buf crc rf re tf]. unfold rx_buffer_sized.
  simpl. intros -> Hbuf Hp. apply el_feed_frame; assumption.
Qed.

Lemma view_payload (p rest : list Z) :
  view (p ++ rest) (Z.of_nat (length p)) = p.
Proof. unfold view. rewrite Nat2Z.id. apply take_app_length. Qed.

(** Feeding the wire frame of a message to an idle parser: one call of the
    message callback, with the message. *)
Lemma el_feed_wire_frame (ctx : el_ctx_t) (f : fnptr) (m : Z) (p : list Z) :
  state ctx = EL_STATE_IDLE -> rx_buffer_sized ctx ->
  on_message ctx = Some f ->
  is_u8 m -> Forall is_u8 p -> Z.of_nat (length p) <= EL_MAX_PAYLOAD ->
  exists ctx' rbuf,
    el_feed ctx (wire_frame m p)
    = Some (ctx', [OnMessage f m rbuf (Z.of_nat (length p))])
    /\ view rbuf (Z.of_nat (length p)) = p
    /\ state ctx' = EL_STATE_IDLE
    /\ rx_buffer_sized ctx'
    /\ on_message ctx' = Some f
    /\ rx_frames ctx' = wrap32 (rx_frames ctx + 1)
    /\ rx_errors ctx' = rx_errors ctx
    /\ tx_frames ctx' = tx_frames ctx.
Proof.
  intros Hst Hbuf Hom Hm Hp Hlen. unfold wire_frame.
  rewrite el_feed_frame_ctx by assumption.
  unfold after_frame. rewrite <- frame_crc_bitwise by assumption.
  rewrite bool_decide_eq_true_2 by reflexivity. rewrite Hom.
  eexists _, _. split; [reflexivity|].
  split; [apply view_payload|].
  repeat split. unfold rx_buffer_sized in *. simpl.
  rewrite length_app, length_drop. unfold EL_MAX_PAYLOAD in *. lia.
Qed.

(** The callbacks are set by [el_init] and never change afterwards. *)
Lemma el_process_byte_ready (ctx ctx' : el_ctx_t) (byte : Z) (calls : list call) :
  el_process_byte ctx byte = Some (ctx', calls) ->
  on_message ctx' = on_message ctx /\ send_bytes ctx' = send_bytes ctx.
Proof.
  destruct ctx as [om sb st mid len k buf crc rf re tf].
  unfold el_process_byte. ctx_simpl. destruct st.
  - case_bool_decide; intros Hres; inversion Hres; split; reflexivity.
  - intros Hres; inversion Hres; split; reflexivity.
  - repeat case_bool_decide; intros Hres; inversion Hres; split; reflexivity.
  - destruct (store buf k byte) as [buf'|]; simpl; [|discriminate].
    ctx_simpl. case_bool_decide; intros Hres; inversion Hres; split; reflexivity.
  - case_bool_decide; intros Hres; inversion Hres; split; reflexivity.
Qed.

Lemma el_send_ready (ctx ctx' : el_ctx_t) (m : Z) (payload : option (list Z))
    (len : Z) (ret : bool) (calls : list call) :
  el_send ctx m payload len = Some (ret, ctx', calls) ->
  on_message ctx' = on_message ctx /\ send_bytes ctx' = send_bytes ctx.
Proof.
  unfold el_send. destruct (send_bytes ctx) as [sink|] eqn:Hs.
  2:{ intros Hres; inversion Hres; subst; split; [reflexivity | exact Hs]. }
  case_bool_decide.
  { intros Hres; inversion Hres; subst; split; [reflexivity | exact Hs]. }
  destruct (bool_decide (len > 0) && bool_decide (payload = None)).
  { intros Hres; inversion Hres; subst; split; [reflexivity | exact Hs]. }
  intros Hres.
  repeat match type of Hres with
         | (?x ≫= _) = Some _ =>
             destruct x as [?|] eqn:?; simpl in Hres; [|discriminate Hres]
         | (let '(_, _) := ?y in _) = Some _ => destruct y
         end.
  inversion Hres; subst. split; [reflexivity | exact Hs].
Qed.

(** ** The claims about the encoder and the round trip *)

(** The fields of a context after the assignment [ctx->tx_frames = v]. *)
Lemma set_tx_frames_fields (c : el_ctx_t) (v : Z) :
  tx_frames (set_tx_frames c v) = v
  /\ rx_frames (set_tx_frames c v) = rx_frames c
  /\ rx_errors (set_tx_frames c v) = rx_errors c
  /\ state (set_tx_frames c v) = state c
  /\ msg_id (set_tx_frames c v) = msg_id c
  /\ payload_len (set_tx_frames c v) = payload_len c
  /\ payload_idx (set_tx_frames c v) = payload_idx c
  /\ rx_buffer (set_tx_frames c v) = rx_buffer c
  /\ running_crc (set_tx_frames c v) = running_crc c
  /\ on_message (set_tx_frames c v) = on_message c
  /\ send_bytes (set_tx_frames c v) = send_bytes c.
Proof. repeat split. Qed.

(** C6: for every message-id [m] and payload [p] of at most 250 bytes (the
    payload pointer may be NULL only when [p] is empty), [el_send] on a
    context with a byte sink returns true, calls the sink exactly once, with
    exactly the bytes [0xA5] [m] [|p|] [p...] [crc] where [crc] is the CRC-8
    (polynomial 0x07, initial value 0x00) over [m], [|p|] and [p]; in the
    context it returns, [tx_frames] is the old value incremented by one (as
    a [uint32_t]) and every other field is as it was; in particular
    [m = 0x10] and [p = {0x01,0x02,0x03}] give A5 10 03 01 02 03 followed by
    the CRC of 10 03 01 02 03, which is 0x40, and [tx_frames] one higher. *)
Theorem el_send_emits_wire_frame (ctx : el_ctx_t) (sink : fnptr) (m : Z)
    (payload : option (list Z)) (p : list Z)
    (Hsink : send_bytes ctx = Some sink)
    (Hm : is_u8 m) (Hp : Forall is_u8 p)
    (Harg : payload_arg payload p)
    (Hlen : Z.of_nat (length p) <= EL_MAX_PAYLOAD) :
  (exists ctx' buf len,
     el_send ctx m payload (Z.of_nat (length p))
     = Some (true, ctx', [SendBytes sink buf len])
     /\ view buf len
        = [EL_SYNC_BYTE; m; Z.of_nat (length p)] ++ p
            ++ [crc8_bitwise (m :: Z.of_nat (length p) :: p)]
     /\ len = Z.of_nat (length p) + EL_FRAME_OVERHEAD
     /\ tx_frames ctx' = wrap32 (tx_frames ctx + 1)
     /\ rx_frames ctx' = rx_frames ctx
     /\ rx_errors ctx' = rx_errors ctx
     /\ state ctx' = state ctx
     /\ msg_id ctx' = msg_id ctx
     /\ payload_len ctx' = payload_len ctx
     /\ payload_idx ctx' = payload_idx ctx
     /\ rx_buffer ctx' = rx_buffer ctx
     /\ running_crc ctx' = running_crc ctx
     /\ on_message ctx' = on_message ctx
     /\ send_bytes ctx' = send_bytes ctx)
  /\ (exists ctx' buf len,
        el_send ctx 0x10 (Some [0x01; 0x02; 0x03]) 3
        = Some (true, ctx', [SendBytes sink buf len])
        /\ view buf len
           = [0xA5; 0x10; 0x03; 0x01; 0x02; 0x03;
              crc8_bitwise [0x10; 0x03; 0x01; 0x02; 0x03]]
        /\ crc8_bitwise [0x10; 0x03; 0x01; 0x02; 0x03] = 0x40
        /\ tx_frames ctx' = wrap32 (tx_frames ctx + 1)
        /\ rx_frames ctx' = rx_frames ctx
        /\ rx_errors ctx' = rx_errors ctx)
  /\ (is_u32 (tx_frames ctx) -> tx_frames ctx < 4294967295 ->
      exists ctx' buf len,
        el_send ctx m payload (Z.of_nat (length p))
        = Some (true, ctx', [SendBytes sink buf len])
        /\ tx_frames ctx' = tx_frames ctx + 1).
Proof.
  split; [|split].
  - eexists _, _, _. split.
    + apply el_send_ok; [eassumption | apply payload_arg_bytes, Harg | exact Hlen].
    + split.
      { rewrite view_frame_array by (unfold frame_body; simpl; lia).
        rewrite frame_crc_bitwise by assumption. reflexivity. }
      split; [reflexivity|].
      apply set_tx_frames_fields.
  - eexists _, _, _. split; [|split; [|split]].
    + apply (el_send_ok ctx sink 0x10 (Some [1; 2; 3]) [1; 2; 3] Hsink);
        [apply payload_arg_bytes; left; reflexivity
        | unfold EL_MAX_PAYLOAD; simpl; lia].
    + rewrite view_frame_array by reflexivity. vm_compute. reflexivity.
    + vm_compute. reflexivity.
    + destruct (set_tx_frames_fields ctx (wrap32 (tx_frames ctx + 1)))
        as (Htx & Hrf & Hre & _).
      split; [exact Htx | split; [exact Hrf | exact Hre]].
  - intros Hu32 Hmax. eexists _, _, _. split.
    + apply el_send_ok; [eassumption | apply payload_arg_bytes, Harg | exact Hlen].
    + destruct (set_tx_frames_fields ctx (wrap32 (tx_frames ctx + 1)))
        as (Htx & _).
      rewrite Htx. apply wrap32_succ; assumption.
Qed.

Lemma el_send_emits_wire_frame_witness :
  exists ctx' buf len,
    el_send (fresh_ctx 1 2) 0x10 (Some [0x01; 0x02; 0x03])
      (Z.of_nat (length [0x01; 0x02; 0x03]))
    = Some (true, ctx', [SendBytes 2%nat buf len])
    /\ view buf len
       = [EL_SYNC_BYTE; 0x10; Z.of_nat (length [0x01; 0x02; 0x03])]
           ++ [0x01; 0x02; 0x03]
           ++ [crc8_bitwise
                 [0x10; Z.of_nat (length [0x01; 0x02; 0x03]);
                  0x01; 0x02; 0x03]]
    /\ len = Z.of_nat (length [0x01; 0x02; 0x03]) + EL_FRAME_OVERHEAD
    /\ tx_frames ctx' = wrap32 (tx_frames (fresh_ctx 1 2) + 1)
    /\ rx_frames ctx' = rx_frames (fresh_ctx 1 2)
    /\ rx_errors ctx' = rx_errors (fresh_ctx 1 2).
Proof.
  destruct (el_send_emits_wire_frame (fresh_ctx 1 2) 2%nat 0x10
              (Some [0x01; 0x02; 0x03]) [0x01; 0x02; 0x03])
    as [(ctx' & buf & len & H1 & H2 & H3 & H4 & H5 & H6 & _) _].
  - reflexivity.
  - unfold is_u8. lia.
  - repeat constructor; unfold is_u8; lia.
  - left. reflexivity.
  - unfold EL_MAX_PAYLOAD. simpl. lia.
  - exists ctx', buf, len.
    split; [exact H1|]. split; [exact H2|]. split; [exact H3|].
    split; [exact H4|]. split; [exact H5 | exact H6].
Defined.

(** With the fields read off: the frame sent from a fresh context leaves
    [tx_frames] at 1, and a second frame leaves it at 2. *)
Example el_send_counts_frames :
  exists ctx1 calls1 ctx2 calls2,
    el_send (fresh_ctx 1 2) 0x10 (Some [0x01; 0x02; 0x03]) 3
    = Some (true, ctx1, calls1)
    /\ tx_frames ctx1 = 1
    /\ el_send ctx1 0x11 None 0 = Some (true, ctx2, calls2)
    /\ tx_frames ctx2 = 2.
Proof.
  eexists _, _, _, _.
  split; [vm_compute; reflexivity|]. split; [reflexivity|].
  split; [vm_compute; reflexivity | reflexivity].
Qed.

(** C7: on a context with a byte sink, and with a payload pointer that is
    NULL or points to at least [len] bytes, [el_send] fails exactly when
    [len] exceeds 250 or the payload pointer is NULL while [len] is not 0;
    a failing call returns false, calls the sink zero times and leaves the
    whole context (so all three counters) unchanged, and every other call
    succeeds with one sink call. *)
Theorem el_send_fails_exactly_when (ctx : el_ctx_t) (sink : fnptr) (m : Z)
    (payload : option (list Z)) (len : Z)
    (Hsink : send_bytes ctx = Some sink)
    (Hlen : is_u8 len)
    (Hsrc : forall src, payload = Some src -> len <= Z.of_nat (length src)) :
  (el_send ctx m payload len = Some (false, ctx, [])
   <-> len > EL_MAX_PAYLOAD \/ (payload = None /\ len <> 0))
  /\ (forall ret ctx' calls,
        el_send ctx m payload len = Some (ret, ctx', calls) ->
        ret = false -> ctx' = ctx /\ calls = [])
  /\ (~ (len > EL_MAX_PAYLOAD \/ (payload = None /\ len <> 0)) ->
      exists buf flen,
        el_send ctx m payload len
        = Some (true, set_tx_frames ctx (wrap32 (tx_frames ctx + 1)),
                [SendBytes sink buf flen])).
Proof.
  unfold is_u8 in Hlen.
  assert (len > EL_MAX_PAYLOAD \/ (payload = None /\ len <> 0) ->
          el_send ctx m payload len = Some (false, ctx, [])) as Hfail.
  { intros Hc. apply el_send_rejects. destruct Hc as [Hc | [Hn Hz]];
      [left; exact Hc | right; split; [exact Hn | lia]]. }
  assert (~ (len > EL_MAX_PAYLOAD \/ (payload = None /\ len <> 0)) ->
          exists buf flen,
            el_send ctx m payload len
            = Some (true, set_tx_frames ctx (wrap32 (tx_frames ctx + 1)),
                    [SendBytes sink buf flen])) as Hok.
  { intros Hnc.
    assert (len <= EL_MAX_PAYLOAD) as Hmax by lia.
    set (p := match payload with Some src => view src len | None => [] end).
    assert (Z.of_nat (length p) = len) as Hp.
    { subst p. destruct payload as [src|].
      - specialize (Hsrc src eq_refl). unfold view. rewrite length_take. lia.
      - destruct (Z.eq_dec len 0) as [->|Hnz]; [reflexivity|].
        exfalso. apply Hnc. right. split; [reflexivity | exact Hnz]. }
    eexists _, _. rewrite <- Hp. apply el_send_ok; [exact Hsink | | lia].
    split; [reflexivity|]. rewrite Hp.
    destruct payload as [src|]; [right; exists src; split; reflexivity|].
    left. subst p. simpl in Hp. lia. }
  split; [|split].
  - split; [|exact Hfail].
    intros Hres.
    destruct (decide (len > EL_MAX_PAYLOAD \/ (payload = None /\ len <> 0)))
      as [Hc|Hnc]; [exact Hc|].
    destruct (Hok Hnc) as (buf & flen & Heq). congruence.
  - intros ret ctx' calls Heq ->.
    destruct (decide (len > EL_MAX_PAYLOAD \/ (payload = None /\ len <> 0)))
      as [Hc|Hnc].
    + rewrite (Hfail Hc) in Heq. inversion Heq. split; reflexivity.
    + destruct (Hok Hnc) as (buf & flen & Heq'). congruence.
  - exact Hok.
Qed.

Lemma el_send_fails_exactly_when_witness :
  el_send (fresh_ctx 1 2) 0x10 None 3 = Some (false, fresh_ctx 1 2, [])
  <-> 3 > EL_MAX_PAYLOAD \/ (@None (list Z) = None /\ 3 <> 0).
Proof.
  apply (el_send_fails_exactly_when (fresh_ctx 1 2) 2%nat 0x10 None 3).
  - reflexivity.
  - unfold is_u8. lia.
  - intros src Hsrc. discriminate Hsrc.
Defined.

(** C1: for every message-id [m] and payload [p] of at most 250 bytes,
    [el_send] on a context with a byte sink hands one byte sequence to the
    sink, and feeding that sequence byte by byte through [el_process_byte]
    to a parser fresh from [el_init] makes exactly one call of the message
    callback, with arguments [m], the receive buffer holding [p] in its
    first [|p|] bytes, and [|p|]. *)
Theorem el_send_feed_roundtrip (tx c0 rx : el_ctx_t) (cfg : el_config_t)
    (sink : fnptr) (m : Z) (p : list Z)
    (Hsink : send_bytes tx = Some sink)
    (Hinit : el_init c0 cfg = (true, rx))
    (Hlen : Z.of_nat (length p) <= EL_MAX_PAYLOAD) :
  exists tx' buf len,
    el_send tx m (Some p) (Z.of_nat (length p))
    = Some (true, tx', [SendBytes sink buf len])
    /\ exists rx' f rbuf,
         cfg_on_message cfg = Some f
         /\ el_feed rx (view buf len)
            = Some (rx', [OnMessage f m rbuf (Z.of_nat (length p))])
         /\ view rbuf (Z.of_nat (length p)) = p
         /\ rx_frames rx' = 1 /\ rx_errors rx' = 0.
Proof.
  eexists _, _, _. split.
  - apply el_send_ok; [exact Hsink | | exact Hlen].
    apply payload_arg_bytes. left. reflexivity.
  - apply el_init_inv in Hinit as (f & g & Hf & _ & ->).
    rewrite view_frame_array by (unfold frame_body; simpl; lia).
    rewrite el_feed_frame by (rewrite ?length_replicate; unfold EL_MAX_PAYLOAD in *; lia).
    unfold after_frame. rewrite bool_decide_eq_true_2 by reflexivity.
    eexists _, f, _. split; [exact Hf|]. split; [reflexivity|].
    split; [apply view_payload|]. split; reflexivity.
Qed.

Lemma el_send_feed_roundtrip_witness :
  exists tx' buf len,
    el_send (fresh_ctx 1 2) 0x10 (Some [0x01; 0x02; 0x03])
      (Z.of_nat (length [0x01; 0x02; 0x03]))
    = Some (true, tx', [SendBytes 2%nat buf len])
    /\ exists rx' f rbuf,
         cfg_on_message (mk_el_config (Some 3%nat) (Some 4%nat)) = Some f
         /\ el_feed (fresh_ctx 3 4) (view buf len)
            = Some (rx', [OnMessage f 0x10 rbuf
                            (Z.of_nat (length [0x01; 0x02; 0x03]))])
         /\ view rbuf (Z.of_nat (length [0x01; 0x02; 0x03]))
            = [0x01; 0x02; 0x03]
         /\ rx_frames rx' = 1 /\ rx_errors rx' = 0.
Proof.
  apply (el_send_feed_roundtrip (fresh_ctx 1 2) el_ctx_zero (fresh_ctx 3 4)
           (mk_el_config (Some 3%nat) (Some 4%nat)) 2%nat 0x10
           [0x01; 0x02; 0x03]).
  - reflexivity.
  - reflexivity.
  - unfold EL_MAX_PAYLOAD. simpl. lia.
Defined.

(** ** The claims about single steps and reset *)

(** C2: a step of [el_process_byte] in state GotPayload, on a context whose
    message callback is configured, always ends in state Idle; when the byte
    equals the running CRC it increments [rx_frames] by one (as a
    [uint32_t]), leaves [rx_errors] alone and makes exactly one call of the
    callback, inside the step, with the message-id, the receive buffer and
    the length of the context; otherwise it increments [rx_errors] by one,
    leaves [rx_frames] alone and makes no call. *)
Theorem el_process_byte_checksum_step (ctx : el_ctx_t) (byte : Z) (f : fnptr)
    (Hstate : state ctx = EL_STATE_GOT_PAYLOAD)
    (Hcb : on_message ctx = Some f) :
  exists ctx' calls,
    el_process_byte ctx byte = Some (ctx', calls)
    /\ state ctx' = EL_STATE_IDLE
    /\ (byte = running_crc ctx ->
        rx_frames ctx' = wrap32 (rx_frames ctx + 1)
        /\ rx_errors ctx' = rx_errors ctx
        /\ calls = [OnMessage f (msg_id ctx) (rx_buffer ctx) (payload_len ctx)])
    /\ (byte <> running_crc ctx ->
        rx_errors ctx' = wrap32 (rx_errors ctx + 1)
        /\ rx_frames ctx' = rx_frames ctx
        /\ calls = []).
Proof.
  destruct ctx as [om sb st mid len k buf crc rf re tf].
  simpl in Hstate, Hcb. subst st om. rewrite step_got_payload. simpl.
  case_bool_decide as Hcrc.
  - eexists _, _. split; [reflexivity|]. split; [reflexivity|].
    split; [intros _; repeat split | intros Hne; contradiction].
  - eexists _, _. split; [reflexivity|]. split; [reflexivity|].
    split; [intros Heq; contradiction | intros _; repeat split].
Qed.

Lemma el_process_byte_checksum_step_witness :
  exists ctx' calls,
    el_process_byte
      (mk_el_ctx (Some 1%nat) (Some 2%nat) EL_STATE_GOT_PAYLOAD 0x10 0 0
         (replicate 250 0) 0x70 0 0 0) 0x70
    = Some (ctx', calls)
    /\ state ctx' = EL_STATE_IDLE
    /\ (0x70 = 0x70 ->
        rx_frames ctx' = wrap32 (0 + 1)
        /\ rx_errors ctx' = 0
        /\ calls = [OnMessage 1%nat 0x10 (replicate 250 0) 0])
    /\ (0x70 <> 0x70 ->
        rx_errors ctx' = wrap32 (0 + 1)
        /\ rx_frames ctx' = 0
        /\ calls = []).
Proof.
  apply (el_process_byte_checksum_step
           (mk_el_ctx (Some 1%nat) (Some 2%nat) EL_STATE_GOT_PAYLOAD 0x10 0 0
              (replicate 250 0) 0x70 0 0 0) 0x70 1%nat).
  - reflexivity.
  - reflexivity.
Defined.

(** Without a message callback the accepted frame is counted and no call
    is made. *)
Lemma el_process_byte_checksum_no_callback (ctx : el_ctx_t) :
  state ctx = EL_STATE_GOT_PAYLOAD -> on_message ctx = None ->
  el_process_byte ctx (running_crc ctx)
  = Some (set_state (set_rx_frames ctx (wrap32 (rx_frames ctx + 1)))
            EL_STATE_IDLE, []).
Proof.
  destruct ctx as [om sb st mid len k buf crc rf re tf]. simpl.
  intros -> ->. rewrite step_got_payload.
  rewrite bool_decide_eq_true_2 by reflexivity. reflexivity.
Qed.

(** C9: a byte other than the sync marker 0xA5 processed in state Idle
    leaves the whole context unchanged and makes no call; therefore a run of
    non-sync bytes in front of any input is discarded, and a parser that is
    idle accepts the valid frame that follows the run exactly as it would
    without the run, with the same callback arguments. *)
Theorem idle_discards_non_sync (ctx : el_ctx_t) (byte : Z)
    (noise rest : list Z)
    (Hstate : state ctx = EL_STATE_IDLE)
    (Hbyte : byte <> EL_SYNC_BYTE)
    (Hnoise : Forall (fun b => b <> EL_SYNC_BYTE) noise) :
  el_process_byte ctx byte = Some (ctx, [])
  /\ el_feed ctx noise = Some (ctx, [])
  /\ el_feed ctx (noise ++ rest) = el_feed ctx rest
  /\ (forall f m p,
        rx_buffer_sized ctx -> on_message ctx = Some f ->
        is_u8 m -> Forall is_u8 p ->
        Z.of_nat (length p) <= EL_MAX_PAYLOAD ->
        exists ctx' rbuf,
          el_feed ctx (noise ++ wire_frame m p)
          = Some (ctx', [OnMessage f m rbuf (Z.of_nat (length p))])
          /\ view rbuf (Z.of_nat (length p)) = p
          /\ rx_frames ctx' = wrap32 (rx_frames ctx + 1)
          /\ rx_errors ctx' = rx_errors ctx).
Proof.
  split; [apply el_process_byte_idle_other; assumption|].
  split.
  { rewrite <- (app_nil_r noise), el_feed_noise by assumption. reflexivity. }
  split; [apply el_feed_noise; assumption|].
  intros f m p Hbuf Hcb Hm Hp Hlen.
  rewrite el_feed_noise by assumption.
  destruct (el_feed_wire_frame ctx f m p Hstate Hbuf Hcb Hm Hp Hlen)
    as (ctx' & rbuf & Hfeed & Hview & _ & _ & _ & Hrf & Hre & _).
  exists ctx', rbuf. repeat split; assumption.
Qed.

Lemma idle_discards_non_sync_witness :
  el_process_byte (fresh_ctx 1 2) 0x00 = Some (fresh_ctx 1 2, [])
  /\ el_feed (fresh_ctx 1 2) [0x00; 0xFF; 0x5A] = Some (fresh_ctx 1 2, [])
  /\ el_feed (fresh_ctx 1 2) ([0x00; 0xFF; 0x5A] ++ wire_frame 0x10 [1; 2; 3])
     = el_feed (fresh_ctx 1 2) (wire_frame 0x10 [1; 2; 3]).
Proof.
  pose proof (idle_discards_non_sync (fresh_ctx 1 2) 0x00 [0x00; 0xFF; 0x5A]
                (wire_frame 0x10 [1; 2; 3])) as H.
  destruct H as (H1 & H2 & H3 & _).
  - reflexivity.
  - unfold EL_SYNC_BYTE. lia.
  - repeat constructor; unfold EL_SYNC_BYTE; lia.
  - split; [exact H1 | split; [exact H2 | exact H3]].
Defined.

(** C10: [el_reset] sets the state to Idle and zeroes [payload_idx] and
    [running_crc]; it leaves the three counters, the receive buffer, the two
    callbacks (and the stored message-id and length) as they are; on a
    context that is already Idle with zero cursor and zero running CRC it
    changes nothing at all. *)
Theorem el_reset_frame (ctx : el_ctx_t) :
  state (el_reset ctx) = EL_STATE_IDLE
  /\ payload_idx (el_reset ctx) = 0
  /\ running_crc (el_reset ctx) = 0
  /\ rx_frames (el_reset ctx) = rx_frames ctx
  /\ rx_errors (el_reset ctx) = rx_errors ctx
  /\ tx_frames (el_reset ctx) = tx_frames ctx
  /\ rx_buffer (el_reset ctx) = rx_buffer ctx
  /\ on_message (el_reset ctx) = on_message ctx
  /\ send_bytes (el_reset ctx) = send_bytes ctx
  /\ msg_id (el_reset ctx) = msg_id ctx
  /\ payload_len (el_reset ctx) = payload_len ctx
  /\ (state ctx = EL_STATE_IDLE -> payload_idx ctx = 0 ->
      running_crc ctx = 0 -> el_reset ctx = ctx).
Proof.
  repeat split.
  destruct ctx as [om sb st mid len k buf crc rf re tf]. simpl.
  intros -> -> ->. reflexivity.
Qed.

Lemma el_reset_frame_witness :
  el_reset (fresh_ctx 1 2) = fresh_ctx 1 2.
Proof.
  apply (el_reset_frame (fresh_ctx 1 2)); reflexivity.
Defined.

(** ** Oversized length *)

(** C5: a step of [el_process_byte] in state GotId with a length byte above
    250 increments [rx_errors] by one (as a [uint32_t]), makes no call and
    ends in state Idle at once, with the receive buffer and the cursor as
    they were: no payload byte is awaited.  From there a non-sync byte is
    discarded, the sync marker starts a parse with a running CRC of 0, and
    after any run of non-sync bytes a valid frame is accepted with one call
    of the message callback carrying its message. *)
Theorem oversized_length_rejected (ctx : el_ctx_t) (byte : Z)
    (Hstate : state ctx = EL_STATE_GOT_ID)
    (Hbyte : byte > EL_MAX_PAYLOAD) :
  exists ctx',
    el_process_byte ctx byte = Some (ctx', [])
    /\ state ctx' = EL_STATE_IDLE
    /\ rx_errors ctx' = wrap32 (rx_errors ctx + 1)
    /\ rx_frames ctx' = rx_frames ctx
    /\ rx_buffer ctx' = rx_buffer ctx
    /\ payload_idx ctx' = payload_idx ctx
    /\ (forall b, b <> EL_SYNC_BYTE -> el_process_byte ctx' b = Some (ctx', []))
    /\ el_process_byte ctx' EL_SYNC_BYTE
       = Some (set_running_crc (set_state ctx' EL_STATE_GOT_SYNC) 0, [])
    /\ (forall noise f m p,
          Forall (fun b => b <> EL_SYNC_BYTE) noise ->
          rx_buffer_sized ctx -> on_message ctx = Some f ->
          is_u8 m -> Forall is_u8 p ->
          Z.of_nat (length p) <= EL_MAX_PAYLOAD ->
          exists ctx'' rbuf,
            el_feed ctx' (noise ++ wire_frame m p)
            = Some (ctx'', [OnMessage f m rbuf (Z.of_nat (length p))])
            /\ view rbuf (Z.of_nat (length p)) = p
            /\ state ctx'' = EL_STATE_IDLE
            /\ rx_frames ctx'' = wrap32 (rx_frames ctx + 1)
            /\ rx_errors ctx'' = wrap32 (rx_errors ctx + 1)).
Proof.
  destruct ctx as [om sb st mid len k buf crc rf re tf].
  simpl in Hstate. subst st.
  rewrite step_got_id_overflow by exact Hbyte.
  eexists. split; [reflexivity|]. simpl.
  do 5 (split; [reflexivity|]).
  split; [intros b Hb; apply el_process_byte_idle_other; [reflexivity|exact Hb]|].
  split; [reflexivity|].
  intros noise f m p Hnoise Hbuf Hcb Hm Hp Hlen.
  rewrite el_feed_noise by (reflexivity || assumption).
  unfold rx_buffer_sized in Hbuf. simpl in Hbuf, Hcb.
  edestruct (el_feed_wire_frame
               (mk_el_ctx om sb EL_STATE_IDLE mid byte k buf
                  (el_crc8_update crc byte) rf (wrap32 (re + 1)) tf) f m p)
    as (ctx'' & rbuf & Hfeed & Hview & Hst & _ & _ & Hrf & Hre & _);
    try eassumption; try reflexivity.
  exists ctx'', rbuf. repeat split; assumption.
Qed.

Lemma oversized_length_rejected_witness :
  exists ctx',
    el_process_byte
      (mk_el_ctx (Some 1%nat) (Some 2%nat) EL_STATE_GOT_ID 0x10 0 0
         (replicate 250 0) 0x70 0 0 0) 251
    = Some (ctx', [])
    /\ state ctx' = EL_STATE_IDLE
    /\ rx_errors ctx' = wrap32 (0 + 1).
Proof.
  destruct (oversized_length_rejected
              (mk_el_ctx (Some 1%nat) (Some 2%nat) EL_STATE_GOT_ID 0x10 0 0
                 (replicate 250 0) 0x70 0 0 0) 251)
    as (ctx' & H1 & H2 & H3 & _).
  - reflexivity.
  - unfold EL_MAX_PAYLOAD. lia.
  - exists ctx'. split; [exact H1 | split; [exact H2 | exact H3]].
Defined.

(** The scenario of the specification: the header A5 10 FB (length 251) is
    rejected after three bytes, and the frame A5 10 03 01 02 03 40 that
    follows some noise is delivered. *)
Example oversized_then_valid_frame :
  exists ctx' rbuf,
    el_feed (fresh_ctx 1 2)
      ([0xA5; 0x10; 0xFB] ++ [0x00; 0x42]
         ++ [0xA5; 0x10; 0x03; 0x01; 0x02; 0x03; 0x40])
    = Some (ctx', [OnMessage 1%nat 0x10 rbuf 3])
    /\ view rbuf 3 = [0x01; 0x02; 0x03]
    /\ rx_errors ctx' = 1 /\ rx_frames ctx' = 1
    /\ state ctx' = EL_STATE_IDLE.
Proof. eexists _, _. vm_compute. repeat split. Qed.

(** ** Error detection of the CRC *)

Lemma crc8_table_NoDup : NoDup crc8_table.
Proof. apply (bool_decide_unpack _). vm_compute. exact I. Qed.

Lemma crc8_table_inj (i j : Z) :
  is_u8 i -> is_u8 j ->
  crc8_table !!! Z.to_nat i = crc8_table !!! Z.to_nat j -> i = j.
Proof.
  unfold is_u8. intros Hi Hj Heq.
  assert (Z.to_nat i < length crc8_table)%nat as Hli
    by (rewrite crc8_table_length; lia).
  assert (Z.to_nat j < length crc8_table)%nat as Hlj
    by (rewrite crc8_table_length; lia).
  apply list_lookup_lookup_total_lt in Hli, Hlj. rewrite Heq in Hli.
  pose proof (NoDup_lookup _ _ _ _ crc8_table_NoDup Hli Hlj). lia.
Qed.

Lemma lxor_cancel_l (a b c : Z) : Z.lxor a b = Z.lxor a c -> b = c.
Proof.
  intros H. apply (f_equal (Z.lxor a)) in H.
  rewrite <- !Z.lxor_assoc, Z.lxor_nilpotent, !Z.lxor_0_l in H. exact H.
Qed.

Lemma lxor_cancel_r (a b c : Z) : Z.lxor a c = Z.lxor b c -> a = b.
Proof. rewrite !(Z.lxor_comm _ c). apply lxor_cancel_l. Qed.

Lemma el_crc8_update_inj_crc (c1 c2 b : Z) :
  is_u8 c1 -> is_u8 c2 -> is_u8 b ->
  el_crc8_update c1 b = el_crc8_update c2 b -> c1 = c2.
Proof.
  intros H1 H2 Hb Heq. unfold el_crc8_update in Heq.
  apply crc8_table_inj in Heq; [|apply lxor_u8; assumption..].
  eapply lxor_cancel_r, Heq.
Qed.

Lemma el_crc8_update_inj_byte (c b1 b2 : Z) :
  is_u8 c -> is_u8 b1 -> is_u8 b2 ->
  el_crc8_update c b1 = el_crc8_update c b2 -> b1 = b2.
Proof.
  intros Hc H1 H2 Heq. unfold el_crc8_update in Heq.
  apply crc8_table_inj in Heq; [|apply lxor_u8; assumption..].
  eapply lxor_cancel_l, Heq.
Qed.

Lemma fold_crc8_inj (data : list Z) :
  Forall is_u8 data ->
  forall c1 c2, is_u8 c1 -> is_u8 c2 -> c1 <> c2 ->
  fold_left el_crc8_update data c1 <> fold_left el_crc8_update data c2.
Proof.
  induction 1 as [|b data Hb _ IH]; intros c1 c2 H1 H2 Hne; simpl;
    [exact Hne|].
  assert (el_crc8_update c1 b <> el_crc8_update c2 b) as Hstep.
  { intros Heq. apply Hne.
    apply (el_crc8_update_inj_crc c1 c2 b); assumption. }
  exact (IH _ _ (el_crc8_update_u8 _ _ H1 Hb) (el_crc8_update_u8 _ _ H2 Hb)
           Hstep).
Qed.

Section ErrorDetection.

(** A change [g] of single bytes that never leaves a byte as it is. *)
Variable g : Z -> Z.
Hypothesis g_changes : forall b, is_u8 b -> is_u8 (g b) /\ g b <> b.

(** Changing one byte of the data changes the CRC. *)
Lemma fold_crc8_alter (data : list Z) :
  Forall is_u8 data ->
  forall (i : nat) (c : Z), (i < length data)%nat -> is_u8 c ->
  fold_left el_crc8_update (alter g i data) c
  <> fold_left el_crc8_update data c.
Proof.
  induction 1 as [|b data Hb Hdata IH]; intros i c Hi Hc;
    [simpl in Hi; lia|].
  destruct (g_changes b Hb) as [Hgb Hne].
  destruct i as [|i]; simpl.
  - assert (el_crc8_update c (g b) <> el_crc8_update c b) as Hstep.
    { intros Heq. apply Hne.
      apply (el_crc8_update_inj_byte c (g b) b); assumption. }
    exact (fold_crc8_inj data Hdata _ _ (el_crc8_update_u8 _ _ Hc Hgb)
             (el_crc8_update_u8 _ _ Hc Hb) Hstep).
  - exact (IH i _ ltac:(simpl in Hi; lia) (el_crc8_update_u8 _ _ Hc Hb)).
Qed.

End ErrorDetection.

Lemma flip_u8 (b bit : Z) :
  0 <= bit < 8 -> is_u8 b ->
  is_u8 (Z.lxor b (Z.shiftl 1 bit)) /\ Z.lxor b (Z.shiftl 1 bit) <> b.
Proof.
  intros Hbit Hb.
  assert (is_u8 (Z.shiftl 1 bit) /\ Z.shiftl 1 bit <> 0) as [Hs Hnz].
  { assert (bit = 0 \/ bit = 1 \/ bit = 2 \/ bit = 3 \/ bit = 4 \/ bit = 5
            \/ bit = 6 \/ bit = 7) as Hcases by lia.
    unfold is_u8. rewrite Z.shiftl_1_l.
    destruct Hcases as [->|[->|[->|[->|[->|[->|[->| ->]]]]]]]; lia. }
  split; [apply lxor_u8; assumption|].
  intros Heq. apply Hnz. apply (lxor_cancel_l b).
  rewrite Heq, Z.lxor_0_r. reflexivity.
Qed.

(** ** Checksum sensitivity *)

Lemma fresh_ctx_eq (f g : fnptr) :
  fresh_ctx f g
  = mk_el_ctx (Some f) (Some g) EL_STATE_IDLE 0 0 0
      (replicate (Z.to_nat EL_MAX_PAYLOAD) 0) 0 0 0 0.
Proof. reflexivity. Qed.

(** A frame whose checksum byte is not the CRC of its body is rejected. *)
Lemma el_feed_bad_checksum (f g : fnptr) (m : Z) (p : list Z) (x : Z) :
  Z.of_nat (length p) <= EL_MAX_PAYLOAD ->
  x <> fold_left el_crc8_update (frame_body m p) 0 ->
  rejected_once f g (EL_SYNC_BYTE :: frame_body m p ++ [x]).
Proof.
  intros Hlen Hx. unfold rejected_once. rewrite fresh_ctx_eq.
  rewrite el_feed_frame by (rewrite ?length_replicate; lia).
  unfold after_frame. rewrite bool_decide_eq_false_2 by exact Hx.
  eexists. split; [reflexivity|]. repeat split.
Qed.

(** C8, as the code has it: for the wire frame of any message, flipping
    any single bit of the message-id, of a payload byte or of the checksum
    byte (any byte after the sync marker except the length byte) and feeding
    the result to a fresh parser causes rejection: no call of the message
    callback, [rx_errors] equal to 1, [rx_frames] equal to 0, and the parser
    in state Idle. *)
Theorem single_bit_flip_rejected (f g : fnptr) (m : Z) (p : list Z)
    (pos : nat) (bit : Z)
    (Hm : is_u8 m) (Hp : Forall is_u8 p)
    (Hlen : Z.of_nat (length p) <= EL_MAX_PAYLOAD)
    (Hpos : (1 <= pos <= 3 + length p)%nat)
    (Hnotlen : pos <> 2%nat)
    (Hbit : 0 <= bit < 8) :
  rejected_once f g (flip_bit (wire_frame m p) pos bit).
Proof.
  unfold flip_bit, wire_frame.
  set (flip := fun b => Z.lxor b (Z.shiftl 1 bit)).
  assert (forall b, is_u8 b -> is_u8 (flip b) /\ flip b <> b) as Hflip
    by (intros b Hb; apply flip_u8; assumption).
  pose proof (frame_body_u8 m p Hm Hp Hlen) as Hbody.
  pose proof (frame_crc_bitwise m p Hm Hp Hlen) as Hcrc.
  assert (length (frame_body m p) = S (S (length p))) as Hfb by reflexivity.
  destruct pos as [|i]; [lia|].
  change (alter flip (S i) (EL_SYNC_BYTE :: ?l))
    with (EL_SYNC_BYTE :: alter flip i l).
  destruct (decide (i < length (frame_body m p))%nat) as [Hin|Hout].
  - rewrite alter_app_l by exact Hin.
    pose proof (fold_crc8_alter flip Hflip (frame_body m p) Hbody i 0 Hin
                  zero_u8) as Hne.
    rewrite <- Hcrc.
    destruct i as [|[|j]]; [| lia |].
    + change (alter flip 0%nat (frame_body m p))
        with (frame_body (flip m) p) in *.
      apply el_feed_bad_checksum; [exact Hlen|].
      intros Heq. apply Hne. symmetry. exact Heq.
    + assert (alter flip (S (S j)) (frame_body m p)
              = frame_body m (alter flip j p)) as Hb'.
      { unfold frame_body. rewrite length_alter. reflexivity. }
      rewrite Hb' in *.
      apply el_feed_bad_checksum; [rewrite length_alter; exact Hlen|].
      intros Heq. apply Hne. symmetry. exact Heq.
  - rewrite alter_app_r_alt by lia.
    replace (i - length (frame_body m p))%nat with 0%nat by lia.
    change (alter flip 0%nat [?x]) with [flip x].
    apply el_feed_bad_checksum; [exact Hlen|].
    rewrite Hcrc. apply Hflip. rewrite <- Hcrc.
    apply fold_crc8_u8; [exact zero_u8 | exact Hbody].
Qed.

Lemma single_bit_flip_rejected_witness :
  rejected_once 1 2 (flip_bit (wire_frame 0x10 [0x01; 0x02; 0x03]) 4 7).
Proof.
  apply (single_bit_flip_rejected 1%nat 2%nat 0x10 [0x01; 0x02; 0x03] 4 7).
  - unfold is_u8. lia.
  - repeat constructor; unfold is_u8; lia.
  - unfold EL_MAX_PAYLOAD. simpl. lia.
  - simpl. lia.
  - lia.
  - lia.
Defined.

(** The claim C8 fails for the length byte.  The frame A5 00 01 00 15 is the
    wire frame of message-id 0 with the one-byte payload 00, and a fresh
    parser delivers it.  Flipping bit 0 of its length byte gives
    A5 00 00 00 15: a fresh parser takes A5 00 00 00 as a frame with an empty
    payload and checksum 00, which is right, so that it calls the message
    callback and counts a received frame and no rejected frame. *)
Lemma length_bit_flip_accepted :
  wire_frame 0 [0] = [0xA5; 0x00; 0x01; 0x00; 0x15]
  /\ (exists ctx' rbuf,
        el_feed (fresh_ctx 1 2) (wire_frame 0 [0])
        = Some (ctx', [OnMessage 1%nat 0 rbuf 1]) /\ view rbuf 1 = [0])
  /\ flip_bit (wire_frame 0 [0]) 2 0 = [0xA5; 0x00; 0x00; 0x00; 0x15]
  /\ (exists ctx' rbuf,
        el_feed (fresh_ctx 1 2) (flip_bit (wire_frame 0 [0]) 2 0)
        = Some (ctx', [OnMessage 1%nat 0 rbuf 0])
        /\ rx_frames ctx' = 1 /\ rx_errors ctx' = 0)
  /\ ~ rejected_once 1 2 (flip_bit (wire_frame 0 [0]) 2 0)
  /\ ~ every_bit_flip_rejected.
Proof.
  assert (~ rejected_once 1 2 (flip_bit (wire_frame 0 [0]) 2 0)) as Hnot.
  { intros (ctx' & Hfeed & _). vm_compute in Hfeed. discriminate Hfeed. }
  split; [vm_compute; reflexivity|].
  split; [eexists _, _; vm_compute; split; reflexivity|].
  split; [vm_compute; reflexivity|].
  split; [eexists _, _; vm_compute; repeat split; reflexivity|].
  split; [exact Hnot|].
  intros Hall. apply Hnot. apply Hall.
  - unfold is_u8. lia.
  - repeat constructor; unfold is_u8; lia.
  - unfold EL_MAX_PAYLOAD. simpl. lia.
  - simpl. lia.
  - lia.
Qed.

(** ** The cursor invariant *)

Lemma el_process_byte_invariant (ctx : el_ctx_t) (byte : Z) :
  is_u8 byte -> rx_buffer_sized ctx -> cursor_in_bounds ctx ->
  exists ctx' calls,
    el_process_byte ctx byte = Some (ctx', calls)
    /\ rx_buffer_sized ctx' /\ cursor_in_bounds ctx'.
Proof.
  unfold is_u8, rx_buffer_sized, cursor_in_bounds, EL_MAX_PAYLOAD.
  destruct ctx as [om sb st mid len k buf crc rf re tf]. simpl.
  intros Hb Hbuf Hcur. destruct st.
  - unfold el_process_byte. ctx_simpl.
    case_bool_decide; eexists _, _; (split; [reflexivity|]); simpl;
      (split; [exact Hbuf|]); [discriminate | exact Hcur].
  - rewrite step_got_sync. eexists _, _. split; [reflexivity|]. simpl.
    split; [exact Hbuf | discriminate].
  - destruct (decide (byte > EL_MAX_PAYLOAD)) as [Hbig|Hfit].
    { rewrite step_got_id_overflow by exact Hbig.
      eexists _, _. split; [reflexivity|]. simpl.
      split; [exact Hbuf | discriminate]. }
    unfold EL_MAX_PAYLOAD in Hfit.
    destruct (decide (byte = 0)) as [->|Hnz].
    { rewrite step_got_id_empty. eexists _, _. split; [reflexivity|]. simpl.
      split; [exact Hbuf | discriminate]. }
    rewrite step_got_id_payload by (unfold EL_MAX_PAYLOAD; lia).
    eexists _, _. split; [reflexivity|]. simpl.
    split; [exact Hbuf | intros _; lia].
  - specialize (Hcur eq_refl).
    unfold el_process_byte. ctx_simpl.
    rewrite store_in_range by lia. simpl. ctx_simpl.
    rewrite wrap8_small by lia.
    case_bool_decide; eexists _, _; (split; [reflexivity|]); simpl;
      rewrite length_insert; (split; [exact Hbuf|]);
      [discriminate | intros _; lia].
  - rewrite step_got_payload.
    case_bool_decide; eexists _, _; (split; [reflexivity|]); simpl;
      (split; [exact Hbuf | discriminate]).
Qed.

Lemma el_feed_invariant (bytes : list Z) :
  Forall is_u8 bytes ->
  forall ctx, rx_buffer_sized ctx -> cursor_in_bounds ctx ->
  exists ctx' calls,
    el_feed ctx bytes = Some (ctx', calls)
    /\ rx_buffer_sized ctx' /\ cursor_in_bounds ctx'.
Proof.
  induction 1 as [|b bytes Hb _ IH]; intros ctx Hbuf Hcur.
  - exists ctx, []. split; [reflexivity | split; assumption].
  - destruct (el_process_byte_invariant ctx b Hb Hbuf Hcur)
      as (c1 & t1 & Hstep & Hbuf1 & Hcur1).
    destruct (IH c1 Hbuf1 Hcur1) as (c2 & t2 & Hrest & Hbuf2 & Hcur2).
    exists c2, (t1 ++ t2). rewrite el_feed_cons, Hstep. simpl.
    rewrite Hrest. simpl. split; [reflexivity | split; assumption].
Qed.

Lemma ctx_start_invariant (ctx : el_ctx_t) :
  ctx_start ctx ->
  state ctx = EL_STATE_IDLE /\ rx_buffer_sized ctx /\ cursor_in_bounds ctx.
Proof.
  intros [c0 cfg c Hinit | c0 Hbuf].
  - apply el_init_inv in Hinit as (f & g & _ & _ & ->).
    split; [reflexivity | split; [reflexivity | discriminate]].
  - split; [reflexivity | split; [exact Hbuf | discriminate]].
Qed.

(** C4: from a context as [el_init] or [el_reset] leaves it, every sequence
    of input bytes is processed without a write outside the receive buffer,
    and the context reached satisfies: the receive buffer still has its 250
    bytes, and whenever the state is GotLen,
    [0 <= payload_idx < payload_len <= 250]; so the write that the next step
    makes in state GotLen is at an index below 250 and inside the buffer. *)
Theorem parser_cursor_in_bounds (ctx : el_ctx_t) (bytes : list Z)
    (Hstart : ctx_start ctx) (Hbytes : Forall is_u8 bytes) :
  exists ctx' calls,
    el_feed ctx bytes = Some (ctx', calls)
    /\ Z.of_nat (length (rx_buffer ctx')) = 250
    /\ (state ctx' = EL_STATE_GOT_LEN ->
        0 <= payload_idx ctx' /\ payload_idx ctx' < payload_len ctx'
        /\ payload_len ctx' <= 250)
    /\ (state ctx' = EL_STATE_GOT_LEN ->
        payload_idx ctx' < 250
        /\ forall byte,
             store (rx_buffer ctx') (payload_idx ctx') byte
             = Some (<[Z.to_nat (payload_idx ctx') := byte]> (rx_buffer ctx'))).
Proof.
  destruct (ctx_start_invariant ctx Hstart) as (_ & Hbuf & Hcur).
  destruct (el_feed_invariant bytes Hbytes ctx Hbuf Hcur)
    as (ctx' & calls & Hfeed & Hbuf' & Hcur').
  exists ctx', calls. split; [exact Hfeed|].
  unfold rx_buffer_sized, cursor_in_bounds, EL_MAX_PAYLOAD in *.
  split; [exact Hbuf'|]. split; [exact Hcur'|].
  intros Hst. specialize (Hcur' Hst). split; [lia|].
  intros byte. apply store_in_range. lia.
Qed.

Lemma parser_cursor_in_bounds_witness :
  exists ctx' calls,
    el_feed (el_reset (fresh_ctx 1 2)) [0xA5; 0x10; 0xFA; 0xA5; 0xA5]
    = Some (ctx', calls)
    /\ Z.of_nat (length (rx_buffer ctx')) = 250
    /\ (state ctx' = EL_STATE_GOT_LEN ->
        0 <= payload_idx ctx' /\ payload_idx ctx' < payload_len ctx'
        /\ payload_len ctx' <= 250).
Proof.
  destruct (parser_cursor_in_bounds (el_reset (fresh_ctx 1 2))
              [0xA5; 0x10; 0xFA; 0xA5; 0xA5])
    as (ctx' & calls & H1 & H2 & H3 & _).
  - apply start_reset. reflexivity.
  - repeat constructor; unfold is_u8; lia.
  - exists ctx', calls. split; [exact H1 | split; [exact H2 | exact H3]].
Defined.

(** Outside the invariant the step does write out of bounds: a context in
    state GotLen whose cursor is 250 has left the buffer. *)
Example el_process_byte_out_of_bounds :
  el_process_byte
    (mk_el_ctx (Some 1%nat) (Some 2%nat) EL_STATE_GOT_LEN 0 251 250
       (replicate 250 0) 0 0 0 0) 0x00
  = None.
Proof. reflexivity. Qed.

(** ** The scenarios of the specification *)

(** A5 10 03 01 02 03 40 fed to a fresh parser: one call with message-id
    0x10 and payload 01 02 03, one received frame, no rejected frame. *)
Example scenario_frame_delivered :
  exists ctx' rbuf,
    el_feed (fresh_ctx 1 2) [0xA5; 0x10; 0x03; 0x01; 0x02; 0x03; 0x40]
    = Some (ctx', [OnMessage 1%nat 0x10 rbuf 3])
    /\ view rbuf 3 = [0x01; 0x02; 0x03]
    /\ rx_frames ctx' = 1 /\ rx_errors ctx' = 0.
Proof. eexists _, _. vm_compute. repeat split. Qed.

(** A5 10 00 57, a frame with an empty payload: one call with length 0. *)
Example scenario_empty_payload :
  el_crc8 [0x10; 0x00] 2 = Some 0x57
  /\ exists ctx' rbuf,
       el_feed (fresh_ctx 1 2) [0xA5; 0x10; 0x00; 0x57]
       = Some (ctx', [OnMessage 1%nat 0x10 rbuf 0])
       /\ view rbuf 0 = [] /\ rx_frames ctx' = 1.
Proof. split; [reflexivity|]. eexists _, _. vm_compute. repeat split. Qed.

(** A5 10 03 01 02 03 00, a wrong checksum: no call, one rejected frame. *)
Example scenario_wrong_checksum :
  rejected_once 1 2 [0xA5; 0x10; 0x03; 0x01; 0x02; 0x03; 0x00].
Proof. eexists. vm_compute. repeat split. Qed.

(** The loop of [el_process_bytes] delivers the same calls as the byte
    source, in the same order: two frames in one array give two calls. *)
Example scenario_two_frames :
  exists ctx' rbuf1 rbuf2,
    el_process_bytes (fresh_ctx 1 2)
      [0xA5; 0x10; 0x00; 0x57; 0xA5; 0x10; 0x03; 0x01; 0x02; 0x03; 0x40] 11
    = Some (ctx', [OnMessage 1%nat 0x10 rbuf1 0; OnMessage 1%nat 0x10 rbuf2 3])
    /\ rx_frames ctx' = 2.
Proof. eexists _, _, _. vm_compute. repeat split. Qed.

(** * Further properties of the code *)

(** ** Initialisation *)

(** X1: [el_init] succeeds exactly when both callbacks of the configuration are
    set.  A failing call leaves the context as it was, whatever it held; a
    successful call gives a result that does not depend on the previous
    content of the context: state Idle, the three counters at zero, a zeroed
    receive buffer of 250 bytes, and the callbacks of the configuration. *)
Theorem el_init_outcome (c0 : el_ctx_t) (cfg : el_config_t) :
  (fst (el_init c0 cfg) = true
   <-> is_Some (cfg_on_message cfg) /\ is_Some (cfg_send_bytes cfg))
  /\ (fst (el_init c0 cfg) = false -> snd (el_init c0 cfg) = c0)
  /\ (fst (el_init c0 cfg) = true ->
      (forall c1, el_init c1 cfg = el_init c0 cfg)
      /\ state (snd (el_init c0 cfg)) = EL_STATE_IDLE
      /\ rx_frames (snd (el_init c0 cfg)) = 0
      /\ rx_errors (snd (el_init c0 cfg)) = 0
      /\ tx_frames (snd (el_init c0 cfg)) = 0
      /\ rx_buffer (snd (el_init c0 cfg)) = replicate 250 0
      /\ on_message (snd (el_init c0 cfg)) = cfg_on_message cfg
      /\ send_bytes (snd (el_init c0 cfg)) = cfg_send_bytes cfg).
Proof.
  unfold el_init. destruct cfg as [[f|] [g|]]; simpl.
  - split; [split; [intros _; split; eexists; reflexivity | reflexivity]|].
    split; [discriminate|]. intros _. repeat split.
  - split; [split; [discriminate | intros [_ [x Hx]]; discriminate Hx]|].
    split; [reflexivity | discriminate].
  - split; [split; [discriminate | intros [[x Hx] _]; discriminate Hx]|].
    split; [reflexivity | discriminate].
  - split; [split; [discriminate | intros [[x Hx] _]; discriminate Hx]|].
    split; [reflexivity | discriminate].
Qed.

(** ** The CRC as a running value *)

Lemma view_all (l : list Z) : view l (Z.of_nat (length l)) = l.
Proof. unfold view. rewrite Nat2Z.id. apply firstn_all. Qed.

Lemma view_length (buf : list Z) (n : Z) :
  0 <= n <= Z.of_nat (length buf) -> Z.of_nat (length (view buf n)) = n.
Proof. intros Hn. unfold view. rewrite length_take. lia. Qed.

Lemma view_app_all (l rest : list Z) (n : Z) :
  n = Z.of_nat (length l) -> view (l ++ rest) n = l.
Proof. intros ->. apply view_payload. Qed.

Lemma el_crc8_update_self (c : Z) : el_crc8_update c c = 0.
Proof. unfold el_crc8_update. rewrite Z.lxor_nilpotent. reflexivity. Qed.

Lemma el_crc8_whole (l : list Z) :
  el_crc8 l (Z.of_nat (length l)) = Some (fold_left el_crc8_update l 0).
Proof. rewrite el_crc8_fold by lia. rewrite view_all. reflexivity. Qed.

Lemma el_crc8_snoc (l : list Z) (x : Z) :
  el_crc8 (l ++ [x]) (Z.of_nat (length l) + 1)
  = Some (el_crc8_update (fold_left el_crc8_update l 0) x).
Proof.
  replace (Z.of_nat (length l) + 1) with (Z.of_nat (length (l ++ [x])))
    by (rewrite length_app; simpl; lia).
  rewrite el_crc8_whole, fold_left_app. reflexivity.
Qed.

(** X2: [el_crc8] over a whole array is the value [el_crc8_update] reaches when
    it is fed the bytes one at a time from 0, and the CRC of two parts put
    together is reached by continuing, from the CRC of the first part, with
    the bytes of the second. *)
Theorem el_crc8_continues (xs ys : list Z) :
  el_crc8 xs (Z.of_nat (length xs)) = Some (fold_left el_crc8_update xs 0)
  /\ el_crc8 (xs ++ ys) (Z.of_nat (length xs) + Z.of_nat (length ys))
     = (crc ← el_crc8 xs (Z.of_nat (length xs));
        Some (fold_left el_crc8_update ys crc)).
Proof.
  split; [apply el_crc8_whole|].
  rewrite <- Nat2Z.inj_add, <- length_app, !el_crc8_whole. simpl.
  rewrite fold_left_app. reflexivity.
Qed.

(** X3: the residue: for an array of bytes followed by one more byte [x], the
    CRC of the whole is 0 exactly when [x] is the CRC of the array. *)
Theorem el_crc8_residue (data : list Z) (x : Z)
    (Hdata : Forall is_u8 data) (Hx : is_u8 x) :
  el_crc8 (data ++ [x]) (Z.of_nat (length data) + 1) = Some 0
  <-> el_crc8 data (Z.of_nat (length data)) = Some x.
Proof.
  rewrite el_crc8_snoc, el_crc8_whole.
  pose proof (fold_crc8_u8 data 0 zero_u8 Hdata) as Hc.
  set (c := fold_left el_crc8_update data 0) in *.
  split; intros Heq; inversion Heq as [Heq'].
  - f_equal. symmetry.
    apply (el_crc8_update_inj_byte c x c); try assumption.
    rewrite Heq'. symmetry. apply el_crc8_update_self.
  - rewrite el_crc8_update_self. reflexivity.
Qed.

Lemma el_crc8_residue_witness :
  el_crc8 ([0x10; 0x03; 0x01; 0x02; 0x03] ++ [0x40])
    (Z.of_nat (length [0x10; 0x03; 0x01; 0x02; 0x03]) + 1) = Some 0
  <-> el_crc8 [0x10; 0x03; 0x01; 0x02; 0x03]
        (Z.of_nat (length [0x10; 0x03; 0x01; 0x02; 0x03])) = Some 0x40.
Proof.
  apply (el_crc8_residue [0x10; 0x03; 0x01; 0x02; 0x03] 0x40).
  - repeat constructor; unfold is_u8; lia.
  - unfold is_u8. lia.
Defined.

Lemma fold_crc8_insert (l : list Z) :
  Forall is_u8 l ->
  forall (i : nat) (c b b0 : Z),
    l !! i = Some b0 -> b <> b0 -> is_u8 b -> is_u8 c ->
    fold_left el_crc8_update (<[i := b]> l) c <> fold_left el_crc8_update l c.
Proof.
  induction 1 as [|a l Ha Hl IH]; intros i c b b0 Hi Hne Hb Hc;
    [discriminate Hi|].
  destruct i as [|i]; simpl in *.
  - inversion Hi; subst a.
    assert (el_crc8_update c b <> el_crc8_update c b0) as Hstep.
    { intros Heq. apply Hne.
      apply (el_crc8_update_inj_byte c b b0); assumption. }
    exact (fold_crc8_inj l Hl _ _ (el_crc8_update_u8 _ _ Hc Hb)
             (el_crc8_update_u8 _ _ Hc Ha) Hstep).
  - exact (IH i _ b b0 Hi Hne Hb (el_crc8_update_u8 _ _ Hc Ha)).
Qed.

(** X4: [el_crc8] detects every change of a single byte: overwriting one of the
    [n] bytes it covers with a different byte changes its result. *)
Theorem el_crc8_detects_byte_change (data : list Z) (n : Z) (i : nat) (b : Z)
    (Hdata : Forall is_u8 data) (Hb : is_u8 b)
    (Hn : 0 <= n <= Z.of_nat (length data))
    (Hi : Z.of_nat i < n)
    (Hchange : data !! i <> Some b) :
  el_crc8 (<[i := b]> data) n <> el_crc8 data n.
Proof.
  rewrite !el_crc8_fold by (rewrite ?length_insert; lia).
  intros Heq. inversion Heq as [Heq']. revert Heq'.
  unfold view. rewrite take_insert_lt by lia.
  destruct (take (Z.to_nat n) data !! i) as [b0|] eqn:Hb0.
  2:{ apply lookup_ge_None in Hb0. rewrite length_take in Hb0. lia. }
  apply (fold_crc8_insert _ (Forall_take _ _ _ Hdata) i 0 b b0 Hb0);
    [|exact Hb|exact zero_u8].
  intros ->. apply Hchange.
  rewrite lookup_take_lt in Hb0 by lia. exact Hb0.
Qed.

Lemma el_crc8_detects_byte_change_witness :
  el_crc8 (<[2%nat := 0xFF]> [0x10; 0x03; 0x01; 0x02; 0x03]) 5
  <> el_crc8 [0x10; 0x03; 0x01; 0x02; 0x03] 5.
Proof.
  apply (el_crc8_detects_byte_change [0x10; 0x03; 0x01; 0x02; 0x03] 5 2 0xFF).
  - repeat constructor; unfold is_u8; lia.
  - unfold is_u8. lia.
  - simpl. lia.
  - lia.
  - simpl. discriminate.
Defined.

(** ** Chunks of input *)

(** X5: [el_process_bytes] with length [n] hands the first [n] bytes of the
    array to [el_process_byte], one after the other, and nothing else: it
    gives what these calls give, whatever follows in the array. *)
Theorem el_process_bytes_prefix (ctx : el_ctx_t) (data : list Z) (n : Z)
    (Hn : 0 <= n <= Z.of_nat (length data)) :
  el_process_bytes ctx data n = el_feed ctx (view data n)
  /\ forall rest, el_process_bytes ctx (view data n ++ rest) n
                  = el_process_bytes ctx data n.
Proof.
  split; [apply el_process_bytes_feed, Hn|].
  intros rest. pose proof (view_length data n Hn) as Hvl.
  rewrite !el_process_bytes_feed by (rewrite ?length_app; lia).
  f_equal. apply view_app_all. symmetry. exact Hvl.
Qed.

Lemma el_process_bytes_prefix_witness :
  el_process_bytes (fresh_ctx 1 2) [0xA5; 0x10; 0x00; 0x57; 0xFF] 4
  = el_feed (fresh_ctx 1 2) (view [0xA5; 0x10; 0x00; 0x57; 0xFF] 4).
Proof.
  destruct (el_process_bytes_prefix (fresh_ctx 1 2)
              [0xA5; 0x10; 0x00; 0x57; 0xFF] 4) as [H _].
  - simpl. lia.
  - exact H.
Defined.

(** X6: [el_process_bytes] may be handed the received bytes in chunks of any
    size: processing two arrays one after the other gives the context and,
    in order, the calls of processing their concatenation; an array of
    length 0 changes nothing. *)
Theorem el_process_bytes_chunks (ctx : el_ctx_t) (xs ys : list Z) :
  el_process_bytes ctx (xs ++ ys) (Z.of_nat (length xs) + Z.of_nat (length ys))
  = ('(ctx1, calls1) ← el_process_bytes ctx xs (Z.of_nat (length xs));
     '(ctx2, calls2) ← el_process_bytes ctx1 ys (Z.of_nat (length ys));
     Some (ctx2, calls1 ++ calls2))
  /\ el_process_bytes ctx xs 0 = Some (ctx, []).
Proof.
  split; [|reflexivity].
  rewrite !el_process_bytes_feed by (rewrite ?length_app; lia).
  rewrite <- Nat2Z.inj_add, <- length_app, !view_all.
  rewrite el_feed_app.
  destruct (el_feed ctx xs) as [[c1 t1]|]; simpl; [|reflexivity].
  rewrite el_process_bytes_feed by lia. rewrite view_all. reflexivity.
Qed.

(** ** What the parser delivers *)

#[local] Arguments wire_frame : simpl never.

Lemma delivered_from_app (hist more : list Z) (c : call) :
  delivered_from hist c -> delivered_from (hist ++ more) c.
Proof.
  destruct c as [f id buf len|]; simpl; [|tauto].
  intros (Hlen & Hmax & pre & post & ->).
  split; [exact Hlen|]. split; [exact Hmax|].
  exists pre, (post ++ more).
  rewrite <- (app_assoc pre). f_equal. simpl. do 3 f_equal.
  rewrite <- (app_assoc _ post more). reflexivity.
Qed.

Lemma view_insert_snoc (buf : list Z) (k b : Z) :
  0 <= k < Z.of_nat (length buf) ->
  view (<[Z.to_nat k := b]> buf) (k + 1) = view buf k ++ [b].
Proof.
  intros Hk. unfold view.
  replace (Z.to_nat (k + 1)) with (S (Z.to_nat k)) by lia.
  rewrite (take_S_r _ _ b) by (apply list_lookup_insert_eq; lia).
  rewrite take_insert_ge by lia. reflexivity.
Qed.

(** One step keeps [parse_progress], and a call it makes carries a message
    whose frame ends with the byte of the step. *)
Lemma el_process_byte_progress (hist : list Z) (ctx : el_ctx_t) (byte : Z) :
  Forall is_u8 hist -> is_u8 byte -> parse_progress hist ctx ->
  exists ctx' calls,
    el_process_byte ctx byte = Some (ctx', calls)
    /\ parse_progress (hist ++ [byte]) ctx'
    /\ Forall (delivered_from (hist ++ [byte])) calls.
Proof.
  intros Hhist Hb [Hbuf Hprog].
  destruct ctx as [om sb st mid len k buf crc rf re tf].
  unfold parse_progress, rx_buffer_sized in *. simpl in Hbuf, Hprog.
  assert (Hb' := Hb). unfold is_u8 in Hb'.
  destruct st; simpl in Hprog.
  - destruct (decide (byte = EL_SYNC_BYTE)) as [->|Hne].
    + rewrite step_idle_sync. eexists _, _. split; [reflexivity|]. simpl.
      split; [|constructor].
      split; [exact Hbuf|]. split; [reflexivity|]. exists hist. reflexivity.
    + rewrite el_process_byte_idle_other by (reflexivity || exact Hne).
      eexists _, _. split; [reflexivity|]. simpl.
      split; [|constructor]. split; [exact Hbuf | exact I].
  - destruct Hprog as (-> & pre & ->).
    rewrite step_got_sync. eexists _, _. split; [reflexivity|]. simpl.
    split; [|constructor].
    split; [exact Hbuf|]. split; [reflexivity|].
    exists pre. rewrite <- app_assoc. reflexivity.
  - destruct Hprog as (-> & pre & ->).
    destruct (decide (byte > EL_MAX_PAYLOAD)) as [Hbig|Hfit].
    { rewrite step_got_id_overflow by exact Hbig.
      eexists _, _. split; [reflexivity|]. simpl.
      split; [|constructor]. split; [exact Hbuf | exact I]. }
    destruct (decide (byte = 0)) as [->|Hnz].
    { rewrite step_got_id_empty. eexists _, _. split; [reflexivity|]. simpl.
      split; [|constructor].
      split; [exact Hbuf|]. unfold EL_MAX_PAYLOAD.
      split; [lia|]. split; [lia|]. split; [reflexivity|].
      exists pre. rewrite <- app_assoc. reflexivity. }
    rewrite step_got_id_payload by lia.
    eexists _, _. split; [reflexivity|]. simpl.
    split; [|constructor].
    split; [exact Hbuf|].
    split; [lia|]. split; [lia|]. split; [lia|]. split; [reflexivity|].
    exists pre. rewrite <- app_assoc. reflexivity.
  - destruct Hprog as (Hk0 & Hklen & Hmax & -> & pre & ->).
    unfold EL_MAX_PAYLOAD in *.
    unfold el_process_byte. ctx_simpl.
    rewrite store_in_range by lia. simpl. ctx_simpl.
    rewrite wrap8_small by lia.
    assert (view (<[Z.to_nat k := byte]> buf) (k + 1) = view buf k ++ [byte])
      as Hview by (apply view_insert_snoc; lia).
    assert (pre ++ EL_SYNC_BYTE :: mid :: len :: view buf k ++ [byte]
            = (pre ++ EL_SYNC_BYTE :: mid :: len :: view buf k) ++ [byte])
      as Hhist' by (rewrite <- app_assoc; reflexivity).
    case_bool_decide as Hdone; eexists _, _; (split; [reflexivity|]); simpl;
      (split; [|constructor]); rewrite length_insert;
      (split; [exact Hbuf|]).
    + assert (len = k + 1) as -> by lia. rewrite Hview.
      split; [lia|]. split; [lia|].
      split; [simpl; rewrite fold_left_app; reflexivity|].
      exists pre. symmetry. exact Hhist'.
    + rewrite Hview.
      split; [lia|]. split; [lia|]. split; [lia|].
      split; [simpl; rewrite fold_left_app; reflexivity|].
      exists pre. symmetry. exact Hhist'.
  - destruct Hprog as (Hlen0 & Hmax & -> & pre & ->).
    rewrite step_got_payload.
    case_bool_decide as Hcrc; eexists _, _; (split; [reflexivity|]); simpl;
      (split; [split; [exact Hbuf | exact I]|]); [|constructor].
    destruct om as [f|]; [|constructor].
    constructor; [|constructor]. simpl.
    unfold EL_MAX_PAYLOAD in *.
    pose proof (view_length buf len ltac:(lia)) as Hvl.
    split; [exact Hvl|]. split; [exact Hmax|].
    exists pre, []. rewrite app_nil_r, <- app_assoc. f_equal.
    simpl. rewrite Hvl. do 4 f_equal.
    rewrite Hcrc. unfold frame_body. rewrite Hvl.
    apply Forall_app in Hhist as [_ Hframe].
    inversion Hframe as [|? ? _ Hbody]; subst.
    change (fold_left el_crc8_update (view buf len)
              (el_crc8_update (el_crc8_update 0 mid) len))
      with (fold_left el_crc8_update (mid :: len :: view buf len) 0).
    f_equal. apply fold_crc8_bitwise; [exact zero_u8 | exact Hbody].
Qed.

Lemma el_feed_progress (bytes : list Z) :
  Forall is_u8 bytes ->
  forall hist ctx,
    Forall is_u8 hist -> parse_progress hist ctx ->
    exists ctx' calls,
      el_feed ctx bytes = Some (ctx', calls)
      /\ parse_progress (hist ++ bytes) ctx'
      /\ Forall (delivered_from (hist ++ bytes)) calls.
Proof.
  induction 1 as [|b bytes Hb Hbytes IH]; intros hist ctx Hhist Hprog.
  - exists ctx, []. rewrite app_nil_r.
    split; [reflexivity | split; [exact Hprog | constructor]].
  - destruct (el_process_byte_progress hist ctx b Hhist Hb Hprog)
      as (c1 & t1 & Hstep & Hprog1 & Hdel1).
    destruct (IH (hist ++ [b]) c1) as (c2 & t2 & Hrest & Hprog2 & Hdel2);
      [apply Forall_app; split;
         [exact Hhist | constructor; [exact Hb | constructor]]
      | exact Hprog1 |].
    rewrite <- app_assoc in Hprog2, Hdel2. simpl in Hprog2, Hdel2.
    exists c2, (t1 ++ t2). rewrite el_feed_cons, Hstep. simpl.
    rewrite Hrest. simpl.
    split; [reflexivity|]. split; [exact Hprog2|].
    apply Forall_app. split; [|exact Hdel2].
    eapply Forall_impl; [exact Hdel1|].
    intros c Hc. change (b :: bytes) with ([b] ++ bytes).
    rewrite app_assoc. apply delivered_from_app, Hc.
Qed.

(** X7: nothing malformed is delivered: whatever bytes an idle parser is fed,
    it processes them all, and every call of the message callback it makes
    carries a message that stands in the input as a whole wire frame, with
    the sync marker, a length of at most 250 that is the length of the
    delivered payload, and the right CRC-8. *)
Theorem el_feed_delivers_only_frames (ctx : el_ctx_t) (bytes : list Z)
    (Hstate : state ctx = EL_STATE_IDLE)
    (Hbuf : rx_buffer_sized ctx)
    (Hbytes : Forall is_u8 bytes) :
  exists ctx' calls,
    el_feed ctx bytes = Some (ctx', calls)
    /\ Forall (delivered_from bytes) calls.
Proof.
  destruct (el_feed_progress bytes Hbytes [] ctx) as (c' & tr & Hf & _ & Hd).
  - constructor.
  - split; [exact Hbuf|]. rewrite Hstate. exact I.
  - exists c', tr. split; [exact Hf | exact Hd].
Qed.

Lemma el_feed_delivers_only_frames_witness :
  exists ctx' calls,
    el_feed (fresh_ctx 1 2)
      [0x00; 0xA5; 0x10; 0x03; 0x01; 0x02; 0x03; 0x40; 0xA5; 0x07]
    = Some (ctx', calls)
    /\ Forall
         (delivered_from
            [0x00; 0xA5; 0x10; 0x03; 0x01; 0x02; 0x03; 0x40; 0xA5; 0x07])
         calls.
Proof.
  apply (el_feed_delivers_only_frames (fresh_ctx 1 2)
           [0x00; 0xA5; 0x10; 0x03; 0x01; 0x02; 0x03; 0x40; 0xA5; 0x07]).
  - reflexivity.
  - reflexivity.
  - repeat constructor; unfold is_u8; lia.
Defined.

(** ** Resynchronisation *)

(** X11: reset in the middle of a frame: whatever state the parser is in, after
    [el_reset] the wire frame of a message is delivered with one call, the
    received counter goes up by one, and the rejected and transmitted
    counters stay as they were before the reset. *)
Theorem el_reset_then_frame (ctx : el_ctx_t) (f : fnptr) (m : Z) (p : list Z)
    (Hbuf : rx_buffer_sized ctx)
    (Hcb : on_message ctx = Some f)
    (Hm : is_u8 m) (Hp : Forall is_u8 p)
    (Hlen : Z.of_nat (length p) <= EL_MAX_PAYLOAD) :
  exists ctx' rbuf,
    el_feed (el_reset ctx) (wire_frame m p)
    = Some (ctx', [OnMessage f m rbuf (Z.of_nat (length p))])
    /\ view rbuf (Z.of_nat (length p)) = p
    /\ state ctx' = EL_STATE_IDLE
    /\ rx_frames ctx' = wrap32 (rx_frames ctx + 1)
    /\ rx_errors ctx' = rx_errors ctx
    /\ tx_frames ctx' = tx_frames ctx.
Proof.
  destruct (el_feed_wire_frame (el_reset ctx) f m p)
    as (ctx' & rbuf & Hfeed & Hview & Hst & _ & _ & Hrf & Hre & Htf);
    try assumption; try reflexivity.
  exists ctx', rbuf. repeat split; assumption.
Qed.

Lemma el_reset_then_frame_witness :
  exists ctx' rbuf,
    el_feed
      (el_reset (mk_el_ctx (Some 1%nat) (Some 2%nat) EL_STATE_GOT_LEN 0x20 200
                   17 (replicate 250 0xA5) 0x33 5 6 7))
      (wire_frame 0x10 [0x01; 0x02; 0x03])
    = Some (ctx', [OnMessage 1%nat 0x10 rbuf
                     (Z.of_nat (length [0x01; 0x02; 0x03]))])
    /\ view rbuf (Z.of_nat (length [0x01; 0x02; 0x03])) = [0x01; 0x02; 0x03]
    /\ state ctx' = EL_STATE_IDLE
    /\ rx_frames ctx' = wrap32 (5 + 1)
    /\ rx_errors ctx' = 6
    /\ tx_frames ctx' = 7.
Proof.
  apply (el_reset_then_frame
           (mk_el_ctx (Some 1%nat) (Some 2%nat) EL_STATE_GOT_LEN 0x20 200 17
              (replicate 250 0xA5) 0x33 5 6 7) 1%nat 0x10 [0x01; 0x02; 0x03]).
  - reflexivity.
  - reflexivity.
  - unfold is_u8. lia.
  - repeat constructor; unfold is_u8; lia.
  - unfold EL_MAX_PAYLOAD. simpl. lia.
Defined.

(** Without the reset the same parser takes the frame for payload of the
    frame it is in. *)
Example frame_swallowed_without_reset :
  exists ctx',
    el_feed
      (mk_el_ctx (Some 1%nat) (Some 2%nat) EL_STATE_GOT_LEN 0x20 200 17
         (replicate 250 0xA5) 0x33 5 6 7)
      [0xA5; 0x10; 0x03; 0x01; 0x02; 0x03; 0x40]
    = Some (ctx', [])
    /\ state ctx' = EL_STATE_GOT_LEN /\ payload_idx ctx' = 24.
Proof. eexists. vm_compute. repeat split. Qed.

(** X10: after a frame with a wrong checksum the parser goes on: the frame is
    counted as rejected without a call, the bytes without sync marker that
    follow are discarded, and the valid frame after them is delivered. *)
Theorem bad_checksum_then_frame (ctx : el_ctx_t) (f : fnptr)
    (m1 : Z) (p1 : list Z) (x : Z) (noise : list Z) (m : Z) (p : list Z)
    (Hstate : state ctx = EL_STATE_IDLE)
    (Hbuf : rx_buffer_sized ctx)
    (Hcb : on_message ctx = Some f)
    (Hlen1 : Z.of_nat (length p1) <= EL_MAX_PAYLOAD)
    (Hbad : x <> fold_left el_crc8_update (frame_body m1 p1) 0)
    (Hnoise : Forall (fun b => b <> EL_SYNC_BYTE) noise)
    (Hm : is_u8 m) (Hp : Forall is_u8 p)
    (Hlen : Z.of_nat (length p) <= EL_MAX_PAYLOAD) :
  exists ctx' rbuf,
    el_feed ctx ((EL_SYNC_BYTE :: frame_body m1 p1 ++ [x])
                   ++ noise ++ wire_frame m p)
    = Some (ctx', [OnMessage f m rbuf (Z.of_nat (length p))])
    /\ view rbuf (Z.of_nat (length p)) = p
    /\ state ctx' = EL_STATE_IDLE
    /\ rx_errors ctx' = wrap32 (rx_errors ctx + 1)
    /\ rx_frames ctx' = wrap32 (rx_frames ctx + 1).
Proof.
  erewrite el_feed_app_silent.
  2:{ rewrite el_feed_frame_ctx by assumption. unfold after_frame.
      rewrite bool_decide_eq_false_2 by exact Hbad. reflexivity. }
  rewrite el_feed_noise by (reflexivity || exact Hnoise).
  match goal with |- context [el_feed ?c (wire_frame m p)] =>
    destruct (el_feed_wire_frame c f m p)
      as (ctx' & rbuf & Hfeed & Hview & Hst & _ & _ & Hrf & Hre & _)
  end; try assumption; try reflexivity.
  { unfold rx_buffer_sized in *. simpl.
    rewrite length_app, length_drop. unfold EL_MAX_PAYLOAD in *. lia. }
  exists ctx', rbuf. repeat split; assumption.
Qed.

Lemma bad_checksum_then_frame_witness :
  exists ctx' rbuf,
    el_feed (fresh_ctx 1 2)
      ((EL_SYNC_BYTE :: frame_body 0x10 [0x01; 0x02; 0x03] ++ [0x00])
         ++ [0x00; 0x42] ++ wire_frame 0x11 [0xA5])
    = Some (ctx', [OnMessage 1%nat 0x11 rbuf (Z.of_nat (length [0xA5]))])
    /\ view rbuf (Z.of_nat (length [0xA5])) = [0xA5]
    /\ state ctx' = EL_STATE_IDLE
    /\ rx_errors ctx' = wrap32 (rx_errors (fresh_ctx 1 2) + 1)
    /\ rx_frames ctx' = wrap32 (rx_frames (fresh_ctx 1 2) + 1).
Proof.
  apply (bad_checksum_then_frame (fresh_ctx 1 2) 1%nat 0x10 [0x01; 0x02; 0x03]
           0x00 [0x00; 0x42] 0x11 [0xA5]).
  - reflexivity.
  - reflexivity.
  - reflexivity.
  - unfold EL_MAX_PAYLOAD. simpl. lia.
  - vm_compute. discriminate.
  - repeat constructor; unfold EL_SYNC_BYTE; lia.
  - unfold is_u8. lia.
  - repeat constructor; unfold is_u8; lia.
  - unfold EL_MAX_PAYLOAD. simpl. lia.
Defined.

(** ** Streams of frames *)

(** X9: a stream of frames, each after a run of bytes without sync marker, fed
    to an idle parser: one call per frame, in the order of the stream, each
    through the message callback and with the message of its frame; the
    received counter goes up by the number of frames, the rejected counter
    stays, and the parser ends idle. *)
Theorem el_feed_stream (items : list stream_item) (ctx : el_ctx_t) (f : fnptr)
    (Hitems : Forall item_ok items)
    (Hstate : state ctx = EL_STATE_IDLE)
    (Hbuf : rx_buffer_sized ctx)
    (Hcb : on_message ctx = Some f)
    (Hrf : is_u32 (rx_frames ctx)) :
  exists ctx' calls,
    el_feed ctx (stream_bytes items) = Some (ctx', calls)
    /\ map call_message calls = map (fun it => Some (item_message it)) items
    /\ Forall (is_on_message f) calls
    /\ state ctx' = EL_STATE_IDLE
    /\ rx_frames ctx' = wrap32 (rx_frames ctx + Z.of_nat (length items))
    /\ rx_errors ctx' = rx_errors ctx.
Proof.
  revert ctx Hstate Hbuf Hcb Hrf.
  induction Hitems as [|[noise [m p]] items Hit _ IH];
    intros ctx Hstate Hbuf Hcb Hrf.
  - exists ctx, []. simpl. rewrite Z.add_0_r.
    repeat split; try constructor; try assumption.
    symmetry. apply wrap32_small. exact Hrf.
  - destruct Hit as (Hnoise & Hm & Hp & Hlen). simpl in Hnoise, Hm, Hp, Hlen.
    destruct (el_feed_wire_frame ctx f m p Hstate Hbuf Hcb Hm Hp Hlen)
      as (c1 & rbuf & Hfeed & Hview & Hst1 & Hbuf1 & Hcb1 & Hrf1 & Hre1 & _).
    destruct (IH c1 Hst1 Hbuf1 Hcb1) as (c2 & t2 & Hrest & Hmsgs & Hon & Hst2 & Hrf2 & Hre2).
    { rewrite Hrf1. apply wrap32_u32. }
    exists c2, (OnMessage f m rbuf (Z.of_nat (length p)) :: t2).
    split.
    { unfold stream_bytes. cbn [map concat]. fold (stream_bytes items).
      unfold item_bytes at 1. cbn [fst snd].
      rewrite <- app_assoc, el_feed_noise by assumption.
      rewrite el_feed_app, Hfeed. cbn [mbind option_bind].
      rewrite Hrest. reflexivity. }
    split; [cbn [map call_message]; rewrite Hview, Hmsgs; reflexivity|].
    split; [constructor; [reflexivity | exact Hon]|].
    split; [exact Hst2|].
    split; [|congruence].
    rewrite Hrf2, Hrf1. unfold wrap32. cbn [length].
    rewrite Z.add_mod_idemp_l by lia. f_equal. lia.
Qed.

Lemma el_feed_stream_witness :
  exists ctx' calls,
    el_feed (fresh_ctx 1 2)
      (stream_bytes [([0x00], (0x10, [0x01; 0xA5])); ([], (0x11, []))])
    = Some (ctx', calls)
    /\ map call_message calls
       = map (fun it => Some (item_message it))
           [([0x00], (0x10, [0x01; 0xA5])); ([], (0x11, []))]
    /\ Forall (is_on_message 1%nat) calls
    /\ state ctx' = EL_STATE_IDLE
    /\ rx_frames ctx' = wrap32 (rx_frames (fresh_ctx 1 2) + Z.of_nat 2)
    /\ rx_errors ctx' = rx_errors (fresh_ctx 1 2).
Proof.
  apply (el_feed_stream [([0x00], (0x10, [0x01; 0xA5])); ([], (0x11, []))]
           (fresh_ctx 1 2) 1%nat).
  - repeat constructor; simpl; unfold is_u8, EL_SYNC_BYTE, EL_MAX_PAYLOAD; lia.
  - reflexivity.
  - reflexivity.
  - reflexivity.
  - unfold is_u32. simpl. lia.
Defined.

(** ** No early delivery *)

(** The header and some payload bytes of a frame with a payload, fed to an
    idle parser. *)
Lemma el_feed_header_payload om sb mid0 len0 k0 buf crc0 rf re tf m len q :
  0 < len -> len <= EL_MAX_PAYLOAD -> Z.of_nat (length q) <= len ->
  Z.of_nat (length buf) = EL_MAX_PAYLOAD ->
  el_feed (mk_el_ctx om sb EL_STATE_IDLE mid0 len0 k0 buf crc0 rf re tf)
    (EL_SYNC_BYTE :: m :: len :: q)
  = Some (mk_el_ctx om sb
            (if bool_decide (Z.of_nat (length q) >= len)
             then EL_STATE_GOT_PAYLOAD else EL_STATE_GOT_LEN)
            m len (Z.of_nat (length q))
            (q ++ drop (length q) buf)
            (fold_left el_crc8_update (m :: len :: q) 0) rf re tf, []).
Proof.
  intros Hpos Hmax Hq Hbuf.
  rewrite (el_feed_cons_silent _ _ _ _ (step_idle_sync _ _ _ _ _ _ _ _ _ _)).
  rewrite (el_feed_cons_silent _ _ _ _ (step_got_sync _ _ _ _ _ _ _ _ _ _ _)).
  erewrite el_feed_cons_silent by (apply step_got_id_payload; lia).
  rewrite el_feed_payload by lia.
  replace (0 + Z.of_nat (length q)) with (Z.of_nat (length q)) by lia.
  reflexivity.
Qed.

(** X8: no partial message is delivered: a proper prefix of a wire frame, fed to
    an idle parser, is processed without any call and without a change of
    the counters, and unless the prefix is empty the parser is left in the
    middle of the frame, not in Idle. *)
Theorem el_feed_frame_prefix (ctx : el_ctx_t) (m : Z) (p : list Z) (k : nat)
    (Hstate : state ctx = EL_STATE_IDLE)
    (Hbuf : rx_buffer_sized ctx)
    (Hlen : Z.of_nat (length p) <= EL_MAX_PAYLOAD)
    (Hk : (k < length (wire_frame m p))%nat) :
  exists ctx',
    el_feed ctx (take k (wire_frame m p)) = Some (ctx', [])
    /\ rx_frames ctx' = rx_frames ctx
    /\ rx_errors ctx' = rx_errors ctx
    /\ tx_frames ctx' = tx_frames ctx
    /\ ((0 < k)%nat -> state ctx' <> EL_STATE_IDLE).
Proof.
  destruct ctx as [om sb st mid len k0 buf crc rf re tf].
  unfold rx_buffer_sized in Hbuf. simpl in Hstate, Hbuf. subst st.
  unfold wire_frame, frame_body in *. simpl in Hk.
  rewrite length_app in Hk. simpl in Hk.
  destruct k as [|[|[|j]]].
  - eexists. split; [reflexivity|]. simpl. repeat split. lia.
  - eexists. split; [reflexivity|]. simpl. repeat split. discriminate.
  - eexists. split; [reflexivity|]. simpl. repeat split. discriminate.
  - assert (j <= length p)%nat as Hj by lia.
    change (take (S (S (S j)))
              (EL_SYNC_BYTE :: (m :: Z.of_nat (length p) :: p) ++ ?c))
      with (EL_SYNC_BYTE :: m :: Z.of_nat (length p) :: take j (p ++ c)).
    rewrite take_app_le by exact Hj.
    destruct p as [|b p].
    + rewrite take_nil.
      rewrite (el_feed_cons_silent _ _ _ _
                 (step_idle_sync _ _ _ _ _ _ _ _ _ _)).
      rewrite (el_feed_cons_silent _ _ _ _
                 (step_got_sync _ _ _ _ _ _ _ _ _ _ _)).
      change (Z.of_nat (length [])) with 0.
      rewrite (el_feed_cons_silent _ _ _ _
                 (step_got_id_empty _ _ _ _ _ _ _ _ _ _)).
      eexists. split; [reflexivity|]. simpl. repeat split. discriminate.
    + rewrite el_feed_header_payload
        by (rewrite ?length_take; cbn [length] in *; lia || assumption).
      eexists. split; [reflexivity|]. simpl. repeat split.
      intros _. case_bool_decide; discriminate.
Qed.

Lemma el_feed_frame_prefix_witness :
  exists ctx',
    el_feed (fresh_ctx 1 2) (take 6 (wire_frame 0x10 [0x01; 0x02; 0x03]))
    = Some (ctx', [])
    /\ rx_frames ctx' = rx_frames (fresh_ctx 1 2)
    /\ rx_errors ctx' = rx_errors (fresh_ctx 1 2)
    /\ tx_frames ctx' = tx_frames (fresh_ctx 1 2)
    /\ ((0 < 6)%nat -> state ctx' <> EL_STATE_IDLE).
Proof.
  apply (el_feed_frame_prefix (fresh_ctx 1 2) 0x10 [0x01; 0x02; 0x03] 6).
  - reflexivity.
  - reflexivity.
  - unfold EL_MAX_PAYLOAD. simpl. lia.
  - simpl. lia.
Defined.

(** ** Counters and calls *)

Lemma wrap32_add_l (a n : Z) : wrap32 (wrap32 a + n) = wrap32 (a + n).
Proof. unfold wrap32. apply Z.add_mod_idemp_l. lia. Qed.

(** What one step does to the counters. *)
Lemma el_process_byte_counts (ctx ctx' : el_ctx_t) (byte : Z)
    (calls : list call) (f : fnptr) :
  el_process_byte ctx byte = Some (ctx', calls) ->
  on_message ctx = Some f ->
  on_message ctx' = Some f /\ send_bytes ctx' = send_bytes ctx
  /\ tx_frames ctx' = tx_frames ctx
  /\ ((calls = []
       /\ rx_frames ctx' = rx_frames ctx
       /\ (rx_errors ctx' = rx_errors ctx
           \/ rx_errors ctx' = wrap32 (rx_errors ctx + 1)))
      \/ (exists id buf len, calls = [OnMessage f id buf len])
         /\ rx_frames ctx' = wrap32 (rx_frames ctx + 1)
         /\ rx_errors ctx' = rx_errors ctx).
Proof.
  destruct ctx as [om sb st mid len k buf crc rf re tf]. simpl.
  intros Hstep ->. revert Hstep.
  unfold el_process_byte. ctx_simpl. destruct st.
  - case_bool_decide; intros Hres; inversion Hres; simpl;
      repeat split; left; repeat split; left; reflexivity.
  - intros Hres; inversion Hres; simpl;
      repeat split; left; repeat split; left; reflexivity.
  - repeat case_bool_decide; intros Hres; inversion Hres; simpl;
      repeat split; left; repeat split; (left; reflexivity) || (right; reflexivity).
  - destruct (store buf k byte) as [buf'|]; simpl; [|discriminate].
    ctx_simpl. case_bool_decide; intros Hres; inversion Hres; simpl;
      repeat split; left; repeat split; left; reflexivity.
  - case_bool_decide; intros Hres; inversion Hres; simpl; repeat split.
    + right. split; [eexists _, _, _; reflexivity|]. split; reflexivity.
    + left. repeat split. right. reflexivity.
Qed.

(** X12: the accounting of the parser: over any input that is processed, the
    calls are all made through the message callback, the received counter
    goes up by exactly the number of calls, the rejected counter goes up by
    some number of frames, and calls and rejected frames together are no
    more than the bytes of the input; the transmitted counter and the two
    callbacks are not touched. *)
Theorem el_feed_accounting (bytes : list Z) (ctx ctx' : el_ctx_t)
    (calls : list call) (f : fnptr)
    (Hfeed : el_feed ctx bytes = Some (ctx', calls))
    (Hcb : on_message ctx = Some f)
    (Hrf : is_u32 (rx_frames ctx)) (Hre : is_u32 (rx_errors ctx)) :
  Forall (is_on_message f) calls
  /\ rx_frames ctx' = wrap32 (rx_frames ctx + Z.of_nat (length calls))
  /\ (exists rejected : nat,
        rx_errors ctx' = wrap32 (rx_errors ctx + Z.of_nat rejected)
        /\ (length calls + rejected <= length bytes)%nat)
  /\ tx_frames ctx' = tx_frames ctx
  /\ on_message ctx' = Some f
  /\ send_bytes ctx' = send_bytes ctx.
Proof.
  revert ctx ctx' calls Hfeed Hcb Hrf Hre.
  induction bytes as [|b bytes IH]; intros ctx ctx' calls Hfeed Hcb Hrf Hre.
  - inversion Hfeed; subst. simpl. rewrite Z.add_0_r.
    split; [constructor|]. split; [symmetry; apply wrap32_small, Hrf|].
    split; [exists 0%nat; rewrite Z.add_0_r;
            split; [symmetry; apply wrap32_small, Hre | simpl; lia]|].
    repeat split. exact Hcb.
  - rewrite el_feed_cons in Hfeed.
    destruct (el_process_byte ctx b) as [[c1 t1]|] eqn:Hstep;
      [|discriminate Hfeed].
    cbn [mbind option_bind] in Hfeed.
    destruct (el_feed c1 bytes) as [[c2 t2]|] eqn:Hrest;
      [|discriminate Hfeed].
    cbn [mbind option_bind] in Hfeed. inversion Hfeed; subst ctx' calls.
    destruct (el_process_byte_counts ctx c1 b t1 f Hstep Hcb)
      as (Hcb1 & Hsb1 & Htx1 & Hcases).
    assert (is_u32 (rx_frames c1) /\ is_u32 (rx_errors c1)) as [Hrf1 Hre1].
    { destruct Hcases as [(_ & -> & [-> | ->]) | (_ & -> & ->)];
        split; try assumption; apply wrap32_u32. }
    destruct (IH c1 c2 t2 Hrest Hcb1 Hrf1 Hre1)
      as (Hon & Hrf2 & (n & Hre2 & Hn) & Htx2 & Hcb2 & Hsb2).
    rewrite length_app, Nat2Z.inj_add.
    destruct Hcases as [(-> & Hf1 & He1) | ((id & buf & len & ->) & Hf1 & He1)].
    + split; [exact Hon|].
      split; [rewrite Hrf2, Hf1; f_equal; simpl; lia|].
      split.
      { destruct He1 as [He1 | He1]; rewrite Hre2, He1.
        - exists n. split; [reflexivity | simpl in *; lia].
        - exists (S n). rewrite wrap32_add_l.
          split; [f_equal; lia | simpl in *; lia]. }
      repeat split; congruence.
    + split; [constructor; [reflexivity | exact Hon]|].
      split; [rewrite Hrf2, Hf1, wrap32_add_l; f_equal; simpl; lia|].
      split; [exists n; split; [congruence | simpl in *; lia]|].
      repeat split; congruence.
Qed.

Lemma el_feed_accounting_witness :
  Forall (is_on_message 1%nat) [OnMessage 1%nat 0x10 (replicate 250 0) 0]
  /\ rx_frames
       (mk_el_ctx (Some 1%nat) (Some 2%nat) EL_STATE_IDLE 0x10 0 0
          (replicate 250 0) 0x57 1 0 0)
     = wrap32 (rx_frames (fresh_ctx 1 2)
               + Z.of_nat (length [OnMessage 1%nat 0x10 (replicate 250 0) 0])).
Proof.
  destruct (el_feed_accounting [0xA5; 0x10; 0x00; 0x57] (fresh_ctx 1 2)
              (mk_el_ctx (Some 1%nat) (Some 2%nat) EL_STATE_IDLE 0x10 0 0
                 (replicate 250 0) 0x57 1 0 0)
              [OnMessage 1%nat 0x10 (replicate 250 0) 0] 1%nat)
    as (H1 & H2 & _).
  - reflexivity.
  - reflexivity.
  - unfold is_u32. simpl. lia.
  - unfold is_u32. simpl. lia.
  - split; [exact H1 | exact H2].
Defined.

(** ** Sending while receiving *)

(** What a call of [el_send] that returns can have done. *)
Lemma el_send_cases (ctx ctx1 : el_ctx_t) (m : Z) (payload : option (list Z))
    (len : Z) (ret : bool) (calls : list call) :
  el_send ctx m payload len = Some (ret, ctx1, calls) ->
  (ret = false /\ ctx1 = ctx /\ calls = [])
  \/ (ret = true
      /\ ctx1 = set_tx_frames ctx (wrap32 (tx_frames ctx + 1))
      /\ exists sink buf flen,
           send_bytes ctx = Some sink /\ calls = [SendBytes sink buf flen]).
Proof.
  unfold el_send. destruct (send_bytes ctx) as [sink|] eqn:Hs.
  2:{ intros Hres; inversion Hres; subst; left; repeat split. }
  case_bool_decide.
  { intros Hres; inversion Hres; subst; left; repeat split. }
  destruct (bool_decide (len > 0) && bool_decide (payload = None)).
  { intros Hres; inversion Hres; subst; left; repeat split. }
  intros Hres.
  repeat match type of Hres with
         | (?x ≫= _) = Some _ =>
             destruct x as [?|] eqn:?; simpl in Hres; [|discriminate Hres]
         | (let '(_, _) := ?y in _) = Some _ => destruct y
         end.
  inversion Hres; subst. right. split; [reflexivity|].
  split; [reflexivity|]. eexists _, _, _. split; reflexivity.
Qed.

(** The parser does not read [tx_frames]. *)
Lemma el_process_byte_tx_frames (ctx : el_ctx_t) (t byte : Z) :
  el_process_byte (set_tx_frames ctx t) byte
  = (r ← el_process_byte ctx byte; Some (set_tx_frames r.1 t, r.2)).
Proof.
  destruct ctx as [om sb st mid len k buf crc rf re tf].
  unfold el_process_byte. ctx_simpl. destruct st.
  - case_bool_decide; reflexivity.
  - reflexivity.
  - repeat case_bool_decide; reflexivity.
  - destruct (store buf k byte) as [buf'|]; simpl; [|reflexivity].
    ctx_simpl. case_bool_decide; reflexivity.
  - case_bool_decide; reflexivity.
Qed.

Lemma el_feed_tx_frames (bytes : list Z) (ctx : el_ctx_t) (t : Z) :
  el_feed (set_tx_frames ctx t) bytes
  = (r ← el_feed ctx bytes; Some (set_tx_frames r.1 t, r.2)).
Proof.
  revert ctx. induction bytes as [|b bytes IH]; intros ctx; [reflexivity|].
  rewrite !el_feed_cons, el_process_byte_tx_frames.
  destruct (el_process_byte ctx b) as [[c1 t1]|]; simpl; [|reflexivity].
  rewrite IH. destruct (el_feed c1 bytes) as [[c2 t2]|]; reflexivity.
Qed.

(** X13: the two directions are independent: a call of [el_send], whether it
    succeeds or fails, changes nothing of the context but [tx_frames], makes
    no call of the message callback, and a parse that is under way goes on
    as if no frame had been sent: the bytes received afterwards give the
    same calls and the same context up to [tx_frames]. *)
Theorem el_send_leaves_parser (ctx ctx1 : el_ctx_t) (m : Z)
    (payload : option (list Z)) (len : Z) (ret : bool) (calls : list call)
    (bytes : list Z)
    (Hsend : el_send ctx m payload len = Some (ret, ctx1, calls)) :
  ctx1 = set_tx_frames ctx (tx_frames ctx1)
  /\ Forall (fun c => call_message c = None) calls
  /\ el_feed ctx1 bytes
     = (r ← el_feed ctx bytes; Some (set_tx_frames r.1 (tx_frames ctx1), r.2)).
Proof.
  assert (ctx1 = set_tx_frames ctx (tx_frames ctx1)
          /\ Forall (fun c => call_message c = None) calls) as [Hctx Hcalls].
  { destruct (el_send_cases _ _ _ _ _ _ _ Hsend)
      as [(_ & -> & ->) | (_ & -> & sink & buf & flen & _ & ->)].
    - split; [destruct ctx; reflexivity | constructor].
    - split; [reflexivity | repeat constructor]. }
  split; [exact Hctx|]. split; [exact Hcalls|].
  rewrite Hctx at 1. apply el_feed_tx_frames.
Qed.

Lemma el_send_leaves_parser_witness :
  el_feed (set_tx_frames (fresh_ctx 1 2) 1) [0xA5; 0x10; 0x00; 0x57]
  = (r ← el_feed (fresh_ctx 1 2) [0xA5; 0x10; 0x00; 0x57];
     Some (set_tx_frames r.1 (tx_frames (set_tx_frames (fresh_ctx 1 2) 1)),
           r.2)).
Proof.
  apply (el_send_leaves_parser (fresh_ctx 1 2)
           (set_tx_frames (fresh_ctx 1 2) 1) 0x20 None 0 true
           [SendBytes 2%nat
              (0xA5 :: 0x20 :: 0x00 :: 0xAE :: replicate 250 0) 4]
           [0xA5; 0x10; 0x00; 0x57]).
  vm_compute. reflexivity.
Defined.

(** ** The helper macros *)

Lemma wrap8_le (n : nat) : 0 <= wrap8 (Z.of_nat n) <= Z.of_nat n.
Proof.
  unfold wrap8. split; [apply Z.mod_pos_bound; lia|].
  apply Z.mod_le; lia.
Qed.

(** X14: [EL_SEND] has no check of the size of the object: the size reaches
    [el_send] reduced modulo 256.  The call fails when the reduced size is
    above 250; otherwise it succeeds and the frame carries the first
    [size mod 256] bytes of the object, which is the whole object exactly
    when the object has fewer than 256 bytes. *)
Theorem EL_SEND_size (ctx : el_ctx_t) (sink : fnptr) (m : Z) (obj : list Z)
    (Hsink : send_bytes ctx = Some sink)
    (Hm : is_u8 m) (Hobj : Forall is_u8 obj) :
  (wrap8 (Z.of_nat (length obj)) > EL_MAX_PAYLOAD ->
   EL_SEND ctx m obj = Some (false, ctx, []))
  /\ (wrap8 (Z.of_nat (length obj)) <= EL_MAX_PAYLOAD ->
      exists buf flen,
        EL_SEND ctx m obj
        = Some (true, set_tx_frames ctx (wrap32 (tx_frames ctx + 1)),
                [SendBytes sink buf flen])
        /\ view buf flen
           = wire_frame m (view obj (wrap8 (Z.of_nat (length obj)))))
  /\ (view obj (wrap8 (Z.of_nat (length obj))) = obj
      <-> Z.of_nat (length obj) < 256).
Proof.
  pose proof (wrap8_le (length obj)) as Hw.
  set (k := wrap8 (Z.of_nat (length obj))) in *.
  assert (Z.of_nat (length (view obj k)) = k) as Hvl
    by (apply view_length; lia).
  split; [|split].
  - intros Hbig. apply el_send_rejects. left. exact Hbig.
  - intros Hfit. unfold EL_SEND. fold k.
    eexists _, _. split.
    + rewrite <- Hvl at 1. apply el_send_ok; [exact Hsink| |lia].
      split; [reflexivity|]. right. exists obj.
      split; [reflexivity|]. rewrite Hvl. reflexivity.
    + rewrite view_frame_array by (unfold frame_body; simpl; lia).
      unfold wire_frame.
      rewrite frame_crc_bitwise;
        [reflexivity | exact Hm | apply Forall_take, Hobj | lia].
  - split.
    + intros Hall. apply (f_equal length) in Hall.
      apply (f_equal Z.of_nat) in Hall. rewrite Hvl in Hall.
      pose proof (Z.mod_pos_bound (Z.of_nat (length obj)) 256 ltac:(lia))
        as Hmod.
      subst k. unfold wrap8 in *. lia.
    + intros Hsmall. subst k. rewrite wrap8_small by lia. apply view_all.
Qed.

Lemma EL_SEND_size_witness :
  exists buf flen,
    EL_SEND (fresh_ctx 1 2) 0x10 [0x01; 0x02; 0x03]
    = Some (true,
            set_tx_frames (fresh_ctx 1 2)
              (wrap32 (tx_frames (fresh_ctx 1 2) + 1)),
            [SendBytes 2%nat buf flen])
    /\ view buf flen
       = wire_frame 0x10
           (view [0x01; 0x02; 0x03]
              (wrap8 (Z.of_nat (length [0x01; 0x02; 0x03])))).
Proof.
  apply (EL_SEND_size (fresh_ctx 1 2) 2%nat 0x10 [0x01; 0x02; 0x03]).
  - reflexivity.
  - unfold is_u8. lia.
  - repeat constructor; unfold is_u8; lia.
  - vm_compute. discriminate.
Defined.

(** An object of 258 bytes: the frame carries its first two bytes. *)
Example EL_SEND_truncates :
  exists ctx' buf flen,
    EL_SEND (fresh_ctx 1 2) 0x10 (replicate 258 0x07)
    = Some (true, ctx', [SendBytes 2%nat buf flen])
    /\ view buf flen = [0xA5; 0x10; 0x02; 0x07; 0x07; 0xCF].
Proof. eexists _, _, _. vm_compute. split; reflexivity. Qed.

(** X15: a typed message from end to end: an object of at most 250 bytes sent
    with [EL_SEND] reaches the message callback of a fresh parser in one
    call, and there [EL_CAST] to a type no larger than the object gives the
    payload pointer, whose first bytes are those of the object, while
    [EL_CAST] to a larger type gives NULL. *)
Theorem EL_SEND_CAST_roundtrip (tx : el_ctx_t) (sink f g : fnptr) (m : Z)
    (obj : list Z) (size : Z)
    (Hsink : send_bytes tx = Some sink)
    (Hlen : Z.of_nat (length obj) <= EL_MAX_PAYLOAD)
    (Hsize : 0 <= size) :
  exists tx' buf flen,
    EL_SEND tx m obj = Some (true, tx', [SendBytes sink buf flen])
    /\ exists rx' rbuf len,
         el_feed (fresh_ctx f g) (view buf flen)
         = Some (rx', [OnMessage f m rbuf len])
         /\ (size <= Z.of_nat (length obj) ->
             EL_CAST size (Some rbuf) len = Some rbuf
             /\ view rbuf size = view obj size)
         /\ (Z.of_nat (length obj) < size ->
             EL_CAST size (Some rbuf) len = None).
Proof.
  unfold EL_SEND, EL_MAX_PAYLOAD in *. rewrite wrap8_small by lia.
  eexists _, _, _. split.
  - apply el_send_ok; [exact Hsink | | exact Hlen].
    apply payload_arg_bytes. left. reflexivity.
  - rewrite view_frame_array by (unfold frame_body; simpl; lia).
    rewrite fresh_ctx_eq.
    rewrite el_feed_frame
      by (rewrite ?length_replicate; unfold EL_MAX_PAYLOAD; lia).
    unfold after_frame. rewrite bool_decide_eq_true_2 by reflexivity.
    eexists _, _, _. split; [reflexivity|].
    unfold EL_CAST. split.
    + intros Hfit. rewrite bool_decide_eq_true_2 by lia.
      split; [reflexivity|].
      unfold view. rewrite !take_app_le by lia. reflexivity.
    + intros Hbig. rewrite bool_decide_eq_false_2 by lia. reflexivity.
Qed.

Lemma EL_SEND_CAST_roundtrip_witness :
  exists tx' buf flen,
    EL_SEND (fresh_ctx 1 2) 0x10 [0x01; 0x02; 0x03]
    = Some (true, tx', [SendBytes 2%nat buf flen])
    /\ exists rx' rbuf len,
         el_feed (fresh_ctx 3 4) (view buf flen)
         = Some (rx', [OnMessage 3%nat 0x10 rbuf len])
         /\ (2 <= Z.of_nat (length [0x01; 0x02; 0x03]) ->
             EL_CAST 2 (Some rbuf) len = Some rbuf
             /\ view rbuf 2 = view [0x01; 0x02; 0x03] 2)
         /\ (Z.of_nat (length [0x01; 0x02; 0x03]) < 2 ->
             EL_CAST 2 (Some rbuf) len = None).
Proof.
  apply (EL_SEND_CAST_roundtrip (fresh_ctx 1 2) 2%nat 3%nat 4%nat 0x10
           [0x01; 0x02; 0x03] 2).
  - reflexivity.
  - unfold EL_MAX_PAYLOAD. simpl. lia.
  - lia.
Defined.
